(** * Smart Tender Assistant: the helpers and the link-curation workflow of
    [main.py], embedded in Rocq.

    Conventions of the embedding.
    - A Python [str] is a Rocq [string]: a sequence of characters with code
      points below 256 (Latin-1).  [lower], [isspace] and the line boundaries
      of [splitlines] are Python's on that range.
    - A Python [int] is a [Z]; slices follow Python's rules for negative
      bounds.
    - A Python [set] of URLs is a [gset string]; a [list] of URLs is a
      [list string] (order and duplicates matter for the candidate list).
    - A call that can raise returns an [outcome]; [try_except] is
      [try: ... except Exception: ...].  An exception that leaves a button
      handler ends that run of the script; the session keeps what the handler
      had stored before.
    - Library calls ([urlparse], [requests.get], [BeautifulSoup],
      [PdfReader]) are not part of the repository: they are section
      variables or explicit arguments describing what the call yields.  The
      search API is a function from the request to its answer; an answer is an
      exception or a JSON object whose [organic_results], when present, is a
      list of objects whose [link] and [url] are strings, null or missing.
    - Streamlit runs the script once per click, so one click is one
      transition of the session state. *)

From stdpp Require Import gmap strings list functions.
From Stdlib Require Import Ascii.

Local Open Scope Z_scope.
#[local] Set Warnings "-clear-no-such-hyp".

(** ** Exceptions *)

Inductive exn :=
| ConnectionError
| Timeout
| JSONDecodeError
| ValueError
| AttributeError
| KeyError
| PdfReadError
| OtherException (what : string).

Inductive outcome (A : Type) :=
| Ok (a : A)
| Raise (e : exn).
Arguments Ok {A} a.
Arguments Raise {A} e.

Global Instance outcome_ret : MRet outcome := λ A, Ok.
Global Instance outcome_bind : MBind outcome := λ A B k m,
  match m with
  | Ok a => k a
  | Raise e => Raise e
  end.

(** [try: body  except Exception: handler] *)
Definition try_except {A} (body : outcome A) (handler : exn → outcome A) : outcome A :=
  match body with
  | Ok a => Ok a
  | Raise e => handler e
  end.

Definition raises {A} (m : outcome A) : Prop := ∃ e, m = Raise e.
Definition returns {A} (m : outcome A) : Prop := ∃ a, m = Ok a.

(** [any(f(x) for x in l)]: stops at the first true element; an exception in
    [f] propagates. *)
Fixpoint any_gen {A} (f : A → outcome bool) (l : list A) : outcome bool :=
  match l with
  | [] => Ok false
  | x :: l' => f x ≫= λ b : bool, if b then Ok true else any_gen f l'
  end.

(** ** Strings *)

Module Str.

Definition code (c : ascii) : N := N_of_ascii c.

(** [str.lower] on one character: A-Z and the Latin-1 capitals. *)
Definition lower_char (c : ascii) : ascii :=
  let n := code c in
  if ((65 <=? n) && (n <=? 90))%N
     || ((192 <=? n) && (n <=? 222) && negb (n =? 215))%N
  then ascii_of_N (n + 32) else c.

Fixpoint lower (s : string) : string :=
  match s with
  | EmptyString => EmptyString
  | String c s' => String (lower_char c) (lower s')
  end.

(** [c.isspace()] *)
Definition isspace (c : ascii) : bool :=
  let n := code c in
  (((9 <=? n) && (n <=? 13)) || ((28 <=? n) && (n <=? 32))
   || (n =? 133) || (n =? 160))%N.

(** The one-character line boundaries of [str.splitlines]; a carriage
    return followed by a line feed counts as one boundary. *)
Definition is_linebreak (c : ascii) : bool :=
  let n := code c in
  (((10 <=? n) && (n <=? 13)) || ((28 <=? n) && (n <=? 30)) || (n =? 133))%N.

(** [s.startswith(p)] *)
Fixpoint startswith (p s : string) : bool :=
  match p, s with
  | EmptyString, _ => true
  | String a p', String b s' => if decide (a = b) then startswith p' s' else false
  | String _ _, EmptyString => false
  end.

(** [d in s] for two strings *)
Fixpoint contains (d s : string) : bool :=
  startswith d s ||
  match s with
  | EmptyString => false
  | String _ s' => contains d s'
  end.

(** [s.lstrip()] *)
Fixpoint lstrip (s : string) : string :=
  match s with
  | EmptyString => EmptyString
  | String c s' => if isspace c then lstrip s' else s
  end.

(** [s.rstrip()] *)
Fixpoint rstrip (s : string) : string :=
  match s with
  | EmptyString => EmptyString
  | String c s' =>
      match rstrip s' with
      | EmptyString => if isspace c then EmptyString else String c EmptyString
      | r => String c r
      end
  end.

(** [s.strip()] *)
Definition strip (s : string) : string := rstrip (lstrip s).

(** [s.splitlines()].  [cur] is the line read so far, reversed. *)
Fixpoint splitlines_go (cur : string) (s : string) : list string :=
  match s with
  | EmptyString =>
      match cur with
      | EmptyString => []
      | _ => [String.rev cur]
      end
  | String c s' =>
      if is_linebreak c then
        String.rev cur ::
          match s' with
          | String c' s'' =>
              if decide (c = "013"%char ∧ c' = "010"%char)
              then splitlines_go EmptyString s''
              else splitlines_go EmptyString s'
          | EmptyString => []
          end
      else splitlines_go (String c cur) s'
  end.

Definition splitlines (s : string) : list string := splitlines_go EmptyString s.

(** Python's [s[:n]] on a string. *)
Fixpoint take (n : nat) (s : string) : string :=
  match n, s with
  | O, _ => EmptyString
  | S n', String c s' => String c (take n' s')
  | S _, EmptyString => EmptyString
  end.

Definition slice_to (n : Z) (s : string) : string :=
  if (0 <=? n)%Z then take (Z.to_nat n) s
  else take (Z.to_nat (Z.of_nat (String.length s) + n)) s.

(** [bool(s)]: a string is truthy when it is not empty. *)
Definition truthy (s : string) : bool :=
  match s with
  | EmptyString => false
  | _ => true
  end.

Fixpoint all (P : ascii → bool) (s : string) : bool :=
  match s with
  | EmptyString => true
  | String c s' => P c && all P s'
  end.

End Str.

(** ** Domain filter *)

(** What [urllib.parse.urlparse] returns. *)
Record ParseResult := {
  scheme : string;
  netloc : string;
  path : string;
  params : string;
  query : string;
  fragment : string
}.

Definition TRUSTED_LIT_DOMAINS : list string :=
  [".edu"; "springer"; "sciencedirect"; "arxiv"; "researchgate"; "acm"; "ieee"].

Section DomainFilter.

(** [urlparse(url)]; it raises [ValueError] on some malformed input. *)
Variable urlparse : string → outcome ParseResult.

Definition is_scholar_url (url : string) : outcome bool :=
  try_except
    (any_gen (λ d, r ← urlparse url; mret (Str.contains d (Str.lower (netloc r))))
             TRUSTED_LIT_DOMAINS)
    (λ _, Ok false).

End DomainFilter.

(** ** Session state *)

(** The four link categories: the keys "t", "s", "prev" and "lit". *)
Inductive kind := K_t | K_s | K_prev | K_lit.

Global Instance kind_eq_dec : EqDecision kind.
Proof. solve_decision. Defined.

(** An entry of [st.session_state["queries"]]. *)
Record query_meta := {
  q : string;
  lit : bool;
  engine : string
}.

(** [st.session_state].  The dictionaries keyed by category are functions of
    the category; [links k] is the list stored under the key [k ^ "_links"]
    (the four keys are created together by the "Fetch links" handler, which
    runs before [link_picker] is ever called). *)
Record session := {
  only_eng : bool;
  accepted : kind → gset string;
  rejected : kind → gset string;
  queries : kind → option query_meta;
  start_index : kind → Z;
  links : kind → list string;
  n_results : option Z;
  t_qs : list string;
  s_qs : list string
}.

(** The state left by the "Session defaults" block. *)
Definition session_defaults : session := {|
  only_eng := false;
  accepted := λ _, ∅;
  rejected := λ _, ∅;
  queries := λ _, None;
  start_index := λ _, 0;
  links := λ _, [];
  n_results := None;
  t_qs := [];
  s_qs := []
|}.

(** [st.session_state["only_eng"] = st.checkbox("English Sources Only", ...)] *)
Definition set_only_eng (b : bool) (st : session) : session :=
  {| only_eng := b; accepted := accepted st;
     rejected := rejected st; queries := queries st;
     start_index := start_index st; links := links st;
     n_results := n_results st; t_qs := t_qs st; s_qs := s_qs st |}.

Definition set_accepted (k : kind) (v : gset string) (st : session) : session :=
  {| only_eng := only_eng st; accepted := <[k := v]> (accepted st);
     rejected := rejected st; queries := queries st;
     start_index := start_index st; links := links st;
     n_results := n_results st; t_qs := t_qs st; s_qs := s_qs st |}.

Definition set_rejected (k : kind) (v : gset string) (st : session) : session :=
  {| only_eng := only_eng st; accepted := accepted st;
     rejected := <[k := v]> (rejected st); queries := queries st;
     start_index := start_index st; links := links st;
     n_results := n_results st; t_qs := t_qs st; s_qs := s_qs st |}.

Definition set_query (k : kind) (v : query_meta) (st : session) : session :=
  {| only_eng := only_eng st; accepted := accepted st;
     rejected := rejected st; queries := <[k := Some v]> (queries st);
     start_index := start_index st; links := links st;
     n_results := n_results st; t_qs := t_qs st; s_qs := s_qs st |}.

Definition set_start_index (k : kind) (v : Z) (st : session) : session :=
  {| only_eng := only_eng st; accepted := accepted st;
     rejected := rejected st; queries := queries st;
     start_index := <[k := v]> (start_index st); links := links st;
     n_results := n_results st; t_qs := t_qs st; s_qs := s_qs st |}.

Definition set_links (k : kind) (v : list string) (st : session) : session :=
  {| only_eng := only_eng st; accepted := accepted st;
     rejected := rejected st; queries := queries st;
     start_index := start_index st; links := <[k := v]> (links st);
     n_results := n_results st; t_qs := t_qs st; s_qs := s_qs st |}.

(** ** Search client *)

(** The parameters of the GET request to the search API. *)
Record request := {
  req_engine : string;
  req_q : string;
  req_num : Z;
  req_start : Z
}.

(** One entry of [organic_results]: [x.get("link")] and [x.get("url")]. *)
Record organic_result := {
  link : option string;
  url : option string
}.

(** What [requests.get(...).json()] yields: an exception (connection error,
    timeout, body that is not JSON) or the decoded object, whose
    [organic_results] key may be missing.  An answer outside this format
    ([organic_results] that is null or not a list of objects, a [link] that is
    not a string) is not described here: every statement about an answer is
    about an answer in this format. *)
Inductive response :=
| Failed (e : exn)
| Json (organic_results : option (list organic_result)).

(** [bool(v)] for the value of an optional string field. *)
Definition opt_truthy (v : option string) : bool :=
  match v with
  | Some s => Str.truthy s
  | None => false
  end.

(** [a or b] *)
Definition py_or (a b : option string) : option string :=
  if opt_truthy a then a else b.

(** [l[:n]] on a list. *)
Definition slice_to {A} (n : Z) (l : list A) : list A :=
  if (0 <=? n)%Z then take (Z.to_nat n) l
  else take (Z.to_nat (Z.of_nat (List.length l) + n)) l.

(** [[x for x in l if f(x)]] where [f] may raise. *)
Fixpoint filter_gen {A} (f : A → outcome bool) (l : list A) : outcome (list A) :=
  match l with
  | [] => Ok []
  | x :: l' =>
      f x ≫= λ b : bool,
      filter_gen f l' ≫= λ r : list A,
      Ok (if b then x :: r else r)
  end.

(** [[f(x) for x in l]] where [f] may raise. *)
Fixpoint map_gen {A B} (f : A → outcome B) (l : list A) : outcome (list B) :=
  match l with
  | [] => Ok []
  | x :: l' =>
      f x ≫= λ y : B,
      map_gen f l' ≫= λ r : list B,
      Ok (y :: r)
  end.

Definition raw_links (results : list organic_result) : list string :=
  omap (λ x, if opt_truthy (py_or (link x) (url x))
             then py_or (link x) (url x) else None) results.

Section SearchClient.

Variable urlparse : string → outcome ParseResult.

(** [api] is the search API as seen by this call: the response to the
    request. *)
Definition serp_links (api : request → response) (st : session)
    (q : string) (n : Z) (start : Z) (engine : string) (lit : bool)
    (kind : option kind) : outcome (list string) :=
  match api {| req_engine := engine; req_q := q; req_num := n; req_start := start |} with
  | Failed e => Raise e
  | Json results =>
      let raw := raw_links (default [] results) in
      (if lit then filter_gen (is_scholar_url urlparse) raw
       else Ok (slice_to n raw)) ≫= λ links : list string,
      Ok (match kind with
          | Some k => filter (λ u, u ∉ rejected st k) links
          | None => links
          end)
  end.

End SearchClient.

(** ** Content fetcher *)

(** A tag of the parsed page: its attribute dictionary. *)
Definition Tag := gmap string string.

(** [tag.get(key, default)] *)
Definition tag_get (tag : Tag) (key default_ : string) : string :=
  default default_ (tag !! key).

(** The parsed page, as far as the code looks at it: [soup.html],
    [soup.find("meta", attrs={"http-equiv": "content-language"})] and
    [soup.get_text(" ", strip=True)]. *)
Record BeautifulSoup := {
  html : option Tag;
  find_meta_content_language : option Tag;
  get_text : outcome string
}.

Definition declared_lang (soup : BeautifulSoup) : string :=
  let lang := match html soup with
              | Some h => tag_get h "lang" ""
              | None => ""
              end in
  if negb (Str.truthy lang) then
    match find_meta_content_language soup with
    | Some meta => tag_get meta "content" ""
    | None => ""
    end
  else lang.

Definition is_english (soup : BeautifulSoup) : bool :=
  let lang := declared_lang soup in
  negb (Str.truthy lang) || Str.startswith "en" (Str.lower lang).

Section ContentFetcher.

(** [requests.get(url, timeout=10).text] *)
Variable requests_get_text : string → outcome string.
(** [bs4.BeautifulSoup(text, "html.parser")] *)
Variable parse_html : string → outcome BeautifulSoup.

Definition fetch_text (st : session) (url : string) (max_chars : Z) : outcome string :=
  try_except
    (requests_get_text url ≫= λ text : string,
     parse_html text ≫= λ soup : BeautifulSoup,
     if only_eng st && negb (is_english soup) then Ok ""
     else get_text soup ≫= λ txt : string, Ok (Str.slice_to max_chars txt))
    (λ _, Ok "").

End ContentFetcher.

(** ** PDF excerpts *)

(** A page of a PDF: what [p.extract_text()] yields. *)
Record Page := {
  extract_text : outcome (option string)
}.

Section Pdf.

Variable File : Type.
(** [PdfReader(file).pages] *)
Variable PdfReader_pages : File → outcome (list Page).

Definition pdf_to_text (file : File) : outcome string :=
  PdfReader_pages file ≫= λ pages : list Page,
  map_gen (λ p, extract_text p ≫= λ t : option string,
                Ok (default "" (py_or t (Some ""))))
          (slice_to 3 pages) ≫= λ parts : list string,
  Ok (fold_right String.append "" parts).

End Pdf.

(** ** Question parsing *)

(** [tuple(s)]: the characters of [s] as one-character strings. *)
Fixpoint tuple (s : string) : list string :=
  match s with
  | EmptyString => []
  | String c s' => String c EmptyString :: tuple s'
  end.

(** [s.startswith(prefixes)] for a tuple of prefixes. *)
Definition startswith_any (prefixes : list string) (s : string) : bool :=
  existsb (λ p, Str.startswith p s) prefixes.

Definition extract_questions (text : string) : list string :=
  map Str.strip
      (filter (λ ln, startswith_any (tuple "12345") (Str.lstrip ln) = true)
              (Str.splitlines text)).

(** ** Link curation *)

(** [l.remove(x)]: drops the first occurrence (the caller checks [x in l]). *)
Fixpoint remove_first (x : string) (l : list string) : list string :=
  match l with
  | [] => []
  | y :: l' => if decide (x = y) then l' else y :: remove_first x l'
  end.

(** The rows that [link_picker] shows:
    [links + [u for u in accepted if u not in links]].  Python does not fix
    the order in which the set is walked; [elements] is one such order, and
    no statement below depends on which. *)
Definition combined (st : session) (k : kind) : list string :=
  links st k ++ filter (λ u, u ∉ links st k) (elements (accepted st k)).

(** The loop of the "More suggestions" handler:
    [for u in extra: if u not in links and u not in accepted: links.append(u)] *)
Definition append_new (acc : gset string) (links extra : list string) : list string :=
  foldl (λ ls u, if decide ((u ∉ ls) ∧ (u ∉ acc)) then ls ++ [u] else ls) links extra.

(** One click in a [link_picker]: the button pressed in this run of the
    script.  Rows are numbered as [enumerate(combined)] numbers them; [More]
    carries the search API as it answers during this run. *)
Inductive click :=
| Save (i : nat)
| Drop (i : nat)
| AddLink (new_url : string)
| More (api : request → response).

Section LinkPicker.

Variable urlparse : string → outcome ParseResult.

(** The button of row [i] labelled with a check mark. *)
Definition on_save (k : kind) (i : nat) (st : session) : session :=
  match combined st k !! i with
  | Some url =>
      if decide (url ∉ accepted st k)
      then set_accepted k ({[url]} ∪ accepted st k) st
      else st
  | None => st
  end.

(** The button of row [i] labelled with a cross. *)
Definition on_drop (k : kind) (i : nat) (st : session) : session :=
  match combined st k !! i with
  | Some url =>
      let st1 := set_accepted k (accepted st k ∖ {[url]}) st in
      let st2 := set_rejected k ({[url]} ∪ rejected st1 k) st1 in
      if decide (url ∈ links st2 k)
      then set_links k (remove_first url (links st2 k)) st2
      else st2
  | None => st
  end.

(** The "Add" button next to the URL field. *)
Definition on_add (k : kind) (new_url : string) (st : session) : session :=
  if Str.truthy new_url then
    if decide ((new_url ∉ links st k) ∧ (new_url ∉ rejected st k))
    then set_links k (links st k ++ [new_url]) st
    else st
  else st.

(** The "More suggestions" button. *)
Definition on_more (api : request → response) (k : kind) (st : session)
    : outcome session :=
  match queries st k with
  | Some meta =>
      let start := start_index st k in
      match n_results st with
      | None => Raise KeyError
      | Some n =>
          serp_links urlparse api st (q meta) n start (engine meta) (lit meta) (Some k)
            ≫= λ extra : list string,
          let st1 := set_links k (append_new (accepted st k) (links st k) extra) st in
          Ok (set_start_index k (start_index st1 k + n) st1)
      end
  | None => Ok st
  end.

(** What a click does once the picker is drawn.  An exception that
    escapes ends the run; the session keeps what had been stored, and
    [on_more] stores nothing before its search call returns. *)
Definition handle (k : kind) (c : click) (st : session) : session :=
  match c with
  | Save i => on_save k i st
  | Drop i => on_drop k i st
  | AddLink new_url => on_add k new_url st
  | More api =>
      match on_more api k st with
      | Ok st' => st'
      | Raise _ => st
      end
  end.

(** [link_picker(kind, header)]: nothing is drawn, so nothing can be
    clicked, when the category has neither a link nor an accepted URL. *)
Definition link_picker (k : kind) (c : click) (st : session) : session :=
  if decide (links st k = [] ∧ accepted st k = ∅) then st
  else handle k c st.

(** The pickers are drawn only when some category has a candidate:
    [if any(st.session_state.get(k) for k in (..._links)): link_picker(...)]. *)
Definition any_links (st : session) : bool :=
  existsb (λ k, bool_decide (links st k ≠ [])) [K_t; K_s; K_prev; K_lit].

(** One run of the script in which the user clicks [c] in the picker of
    category [k]. *)
Definition click_page (k : kind) (c : click) (st : session) : session :=
  if any_links st then link_picker k c st else st.

(** A session of curation: each click names the picker it belongs to.
    [run_handlers] applies the handlers whether or not the button is drawn;
    [run_page] follows the page. *)
Definition run_handlers (cs : list (kind * click)) (st : session) : session :=
  foldl (λ st c, handle c.1 c.2 st) st cs.

Definition run_page (cs : list (kind * click)) (st : session) : session :=
  foldl (λ st c, click_page c.1 c.2 st) st cs.

(** *** The "Fetch links" button *)

(** How a run of a handler ends: normally, or with an exception that
    escapes after the session was left in state [st]. *)
Inductive run :=
| Done (st : session)
| Crashed (st : session) (e : exn).

Definition state_of (r : run) : session :=
  match r with
  | Done st => st
  | Crashed st _ => st
  end.

Definition and_then (r : run) (f : session → run) : run :=
  match r with
  | Done st => f st
  | Crashed st e => Crashed st e
  end.

(** [st.session_state.update({k: [] for k in (..._links, t_qs, s_qs)})]
    followed by [st.session_state["n_results"] = results_per_query]. *)
Definition reset_links (results_per_query : Z) (st : session) : session :=
  {| only_eng := only_eng st; accepted := accepted st;
     rejected := rejected st; queries := queries st;
     start_index := start_index st; links := λ _, [];
     n_results := Some results_per_query; t_qs := []; s_qs := [] |}.

(** The block run for one ticked category. *)
Definition fetch_kind (api : request → response) (k : kind) (query : string)
    (is_lit : bool) (n : Z) (st : session) : run :=
  let st1 := set_query k {| q := query; lit := is_lit; engine := "google" |} st in
  match serp_links urlparse api st1 query n 0 "google" is_lit (Some k) with
  | Ok found => Done (set_start_index k n (set_links k found st1))
  | Raise e => Crashed st1 e
  end.

Definition when (b : bool) (f : session → run) (st : session) : run :=
  if b then f st else Done st.

Definition fetch_links (product : string) (results_per_query : Z)
    (chk_tender chk_supplier chk_prev chk_lit : bool)
    (api : request → response) (st : session) : run :=
  if Str.truthy product then
    and_then (and_then (and_then (and_then
      (Done (reset_links results_per_query st))
      (when chk_tender
         (fetch_kind api K_t (product +:+ " procurement tender")
                     false results_per_query)))
      (when chk_supplier
         (fetch_kind api K_s (product +:+ " supplier Europe price")
                     false results_per_query)))
      (when chk_prev
         (fetch_kind api K_prev ("site:ted.europa.eu " +:+ product)
                     false results_per_query)))
      (when chk_lit
         (fetch_kind api K_lit (product +:+ " tender specification")
                     true (results_per_query * 2)))
  else Done st.

End LinkPicker.

(** ** Prompts and questions *)

(** The line feed of the f-strings. *)
Definition NL : string := String "010" EmptyString.

(** [sep.join(parts)] *)
Fixpoint join (sep : string) (parts : list string) : string :=
  match parts with
  | [] => ""
  | [x] => x
  | x :: rest => x +:+ sep +:+ join sep rest
  end.

(** The lookup in the dictionary of personas raises [KeyError] for a role
    that is not one of its two keys. *)
Definition build_prompt (role docs product : string) : outcome string :=
  (if decide (role = "tender")
   then Ok "You are a public tender expert for Dublin City Council."
   else if decide (role = "supplier")
   then Ok ("You are a market analyst advising a municipality about "
            +:+ product +:+ ".")
   else Raise KeyError) ≫= λ head : string,
  Ok (head +:+ NL +:+ NL +:+ "Below are documents scraped from the web:" +:+ NL
      +:+ docs +:+ NL +:+ NL
      +:+ "Write **exactly five** clarification questions the municipality must answer before drafting a tender."
      +:+ NL +:+ "Output format strictly:" +:+ NL +:+ "QUESTIONS:" +:+ NL
      +:+ "1. ..." +:+ NL +:+ "2. ..." +:+ NL +:+ "3. ..." +:+ NL
      +:+ "4. ..." +:+ NL +:+ "5. ...").

Definition set_t_qs (v : list string) (st : session) : session :=
  {| only_eng := only_eng st; accepted := accepted st;
     rejected := rejected st; queries := queries st;
     start_index := start_index st; links := links st;
     n_results := n_results st; t_qs := v; s_qs := s_qs st |}.

Definition set_s_qs (v : list string) (st : session) : session :=
  {| only_eng := only_eng st; accepted := accepted st;
     rejected := rejected st; queries := queries st;
     start_index := start_index st; links := links st;
     n_results := n_results st; t_qs := t_qs st; s_qs := v |}.

Section Questions.

Variable requests_get_text : string → outcome string.
Variable parse_html : string → outcome BeautifulSoup.
(** [gemini(prompt)]: the call to the generation model. *)
Variable gemini : string → outcome string.

(** [join_text = lambda L: "\n".join(fetch_text(u) for u in L[: results_per_query * 2])] *)
Definition join_text (st : session) (results_per_query : Z) (L : list string)
    : outcome string :=
  map_gen (λ u, fetch_text requests_get_text parse_html st u 8000)
          (slice_to (results_per_query * 2) L) ≫= λ texts : list string,
  Ok (join NL texts).

(** The "Generate Questions" button.  [results_per_query] is the slider as
    it stands in this run. *)
Definition generate_questions (product : string) (results_per_query : Z)
    (st : session) : run :=
  if bool_decide (links st K_t ≠ []) && bool_decide (links st K_s ≠ []) then
    match
      join_text st results_per_query (links st K_t ++ links st K_prev)
        ≫= λ t_docs : string,
      join_text st results_per_query (links st K_s) ≫= λ s_docs : string,
      join_text st results_per_query (links st K_lit) ≫= λ l_docs : string,
      Ok (t_docs, s_docs, l_docs)
    with
    | Raise e => Crashed st e
    | Ok (t_docs, s_docs, l_docs) =>
        match build_prompt "tender" (t_docs +:+ NL +:+ l_docs) product ≫= gemini with
        | Raise e => Crashed st e
        | Ok answer_t =>
            let st1 := set_t_qs (extract_questions answer_t) st in
            match build_prompt "supplier" (s_docs +:+ NL +:+ l_docs) product ≫= gemini with
            | Raise e => Crashed st1 e
            | Ok answer_s => Done (set_s_qs (extract_questions answer_s) st1)
            end
        end
    end
  else Done st.

End Questions.

Section PdfUpload.

Variable File : Type.
Variable PdfReader_pages : File → outcome (list Page).

(** [pdf_text = "".join(pdf_to_text(p) for p in pdf_files) if pdf_files else ""] *)
Definition collect_pdf_text (pdf_files : list File) : outcome string :=
  match pdf_files with
  | [] => Ok ""
  | _ =>
      map_gen (pdf_to_text File PdfReader_pages) pdf_files ≫= λ parts : list string,
      Ok (join "" parts)
  end.

End PdfUpload.

(** ** Statements about the store *)

(** The invariant of one category: the candidate list has no duplicates,
    holds no rejected URL, and no URL is both accepted and rejected. *)
Definition curated (st : session) (k : kind) : Prop :=
  NoDup (links st k)
  ∧ (∀ u, u ∈ links st k → u ∉ rejected st k)
  ∧ accepted st k ## rejected st k.

(** The initial empty state of the store: nothing found, accepted or
    rejected yet (whatever query and cursor are stored). *)
Definition empty_store (st : session) : Prop :=
  ∀ k, links st k = [] ∧ accepted st k = ∅ ∧ rejected st k = ∅.

(** The separation the specification asks of the candidate list: no
    candidate is accepted or rejected. *)
Definition candidates_apart (st : session) (k : kind) : Prop :=
  ∀ u, u ∈ links st k → (u ∉ accepted st k) ∧ (u ∉ rejected st k).

(** Manual add as the specification words it: nothing happens when the URL
    is already a candidate, accepted or rejected; otherwise it is appended to
    the candidates. *)
Definition manual_add_spec (k : kind) (new_url : string) (st : session) : session :=
  if decide (new_url ∈ links st k ∨ new_url ∈ accepted st k ∨ new_url ∈ rejected st k)
  then st
  else set_links k (links st k ++ [new_url]) st.

(** Which categories the check boxes tick, and the count the "Fetch links"
    handler asks the search client for in each. *)
Definition ticked (chk_tender chk_supplier chk_prev chk_lit : bool) (k : kind) : bool :=
  match k with
  | K_t => chk_tender
  | K_s => chk_supplier
  | K_prev => chk_prev
  | K_lit => chk_lit
  end.

Definition requested_count (results_per_query : Z) (k : kind) : Z :=
  match k with
  | K_lit => results_per_query * 2
  | _ => results_per_query
  end.

(** [curated], as a check that can be run on a concrete state. *)
Definition curatedb (st : session) (k : kind) : bool :=
  bool_decide (NoDup (links st k))
  && forallb (λ u, bool_decide (u ∉ rejected st k)) (links st k)
  && bool_decide (accepted st k ## rejected st k).

(** [d] occurs in [host] when letter case is ignored. *)
Definition occurs_ignoring_case (d host : string) : Prop :=
  ∃ pre post, Str.lower host = pre +:+ Str.lower d +:+ post.

(** The host of a network location, as the [hostname] property of
    [urllib]'s parse result computes it: what follows the last "@" (the
    userinfo is dropped), up to the first ":" (the port is dropped) or, for a
    bracketed address, between the brackets; lower-cased up to a "%". *)
Fixpoint after_last (c : ascii) (s : string) : option string :=
  match s with
  | EmptyString => None
  | String a s' =>
      match after_last c s' with
      | Some r => Some r
      | None => if decide (a = c) then Some s' else None
      end
  end.

Fixpoint before_first (c : ascii) (s : string) : string :=
  match s with
  | EmptyString => EmptyString
  | String a s' => if decide (a = c) then EmptyString else String a (before_first c s')
  end.

Fixpoint after_first (c : ascii) (s : string) : option string :=
  match s with
  | EmptyString => None
  | String a s' => if decide (a = c) then Some s' else after_first c s'
  end.

Definition hostname (netloc : string) : string :=
  let hostinfo := default netloc (after_last "@" netloc) in
  let host := match after_first "[" hostinfo with
              | Some bracketed => before_first "]" bracketed
              | None => before_first ":" hostinfo
              end in
  Str.lower (before_first "%" host)
  +:+ match after_first "%" host with
      | Some zone => String "%" zone
      | None => EmptyString
      end.

(** The test as the specification words it: the host of the parsed URL
    contains, letter case ignored, one of the allow-listed substrings. *)
Definition host_allow_listed (r : ParseResult) : Prop :=
  ∃ d, d ∈ TRUSTED_LIT_DOMAINS ∧ occurs_ignoring_case d (hostname (netloc r)).


(** A line whose content, after leading whitespace, begins with one of the
    digits 1 to 5. *)
Definition numbered (ln : string) : Prop :=
  ∃ ws d rest,
    ln = ws +:+ String d rest
    ∧ Str.all Str.isspace ws = true
    ∧ d ∈ ["1"; "2"; "3"; "4"; "5"]%char.

(** The sessions the page can be in: it starts from the defaults, and each
    run of the script ticks or unticks the English-only box, handles "Fetch
    links", handles one click in a picker, or handles "Generate
    Questions". *)
Inductive reachable (urlparse : string → outcome ParseResult) : session → Prop :=
| reach_defaults : reachable urlparse session_defaults
| reach_only_eng st b :
    reachable urlparse st → reachable urlparse (set_only_eng b st)
| reach_fetch st product results_per_query chk_tender chk_supplier chk_prev chk_lit api :
    reachable urlparse st →
    reachable urlparse
      (state_of (fetch_links urlparse product results_per_query
                   chk_tender chk_supplier chk_prev chk_lit api st))
| reach_click st k c :
    reachable urlparse st → reachable urlparse (click_page urlparse k c st)
| reach_ask st requests_get_text parse_html gemini product results_per_query :
    reachable urlparse st →
    reachable urlparse
      (state_of (generate_questions requests_get_text parse_html gemini
                   product results_per_query st)).

(** A category that has something to show has its query stored, and the
    page size is stored as soon as any query is. *)
Definition query_stored (st : session) : Prop :=
  (∀ k, (links st k = [] ∧ accepted st k = ∅) ∨ is_Some (queries st k))
  ∧ ((∀ k, queries st k = None) ∨ is_Some (n_results st)).

(** ** Stand-ins for the outside world, for the worked examples *)

(** A parser that knows one URL and refuses everything else. *)
Definition urlparse_example (u : string) : outcome ParseResult :=
  if decide (u = "https://ArXiv.org/abs/2401.1")
  then Ok {| scheme := "https"; netloc := "ArXiv.org"; path := "/abs/2401.1";
             params := ""; query := ""; fragment := "" |}
  else Raise ValueError.

(** A parser that knows one URL with a user name in front of the host,
    and answers for it as [urlparse] does. *)
Definition urlparse_userinfo (u : string) : outcome ParseResult :=
  if decide (u = "https://arxiv@evil.example/x")
  then Ok {| scheme := "https"; netloc := "arxiv@evil.example"; path := "/x";
             params := ""; query := ""; fragment := "" |}
  else Raise ValueError.

(** A parser that takes the whole string for the network location. *)
Definition urlparse_whole (u : string) : outcome ParseResult :=
  Ok {| scheme := ""; netloc := u; path := ""; params := "";
        query := ""; fragment := "" |}.

Definition result_of (u : string) : organic_result :=
  {| link := Some u; url := None |}.

(** A search API that answers every request with the same results. *)
Definition api_answering (us : list string) : request → response :=
  λ _, Json (Some (result_of <$> us)).

(** The search API answers without repeating a URL within one page. *)
Definition api_without_repeats (api : request → response) : Prop :=
  ∀ req results, api req = Json results → NoDup (raw_links (default [] results)).

(** A search API that cannot be reached. *)
Definition api_unreachable : request → response :=
  λ _, Failed ConnectionError.

(** A session in which "Fetch links" found two tender links and two
    supplier links, and a round of clicks in it. *)
Definition example_session : session :=
  state_of (fetch_links urlparse_whole "ev charger" 2 true true false false
              (api_answering ["A"; "B"]) session_defaults).

Definition example_clicks : list (kind * click) :=
  [(K_t, Save 0%nat); (K_t, Drop 1%nat); (K_s, AddLink "C");
   (K_t, More (api_answering ["D"; "B"; "A"])); (K_t, Drop 0%nat)].

(** A reachable page in French. *)
Definition french_page : BeautifulSoup :=
  {| html := Some {[ "lang" := "fr" ]};
     find_meta_content_language := None;
     get_text := Ok "Bonjour tout le monde" |}.

(** ** A whole session *)

(** What the user does in one run of the script: tick or untick the
    English-only box, press "Fetch links", click in a picker, or press
    "Generate Questions".  An event carries the outside world as it behaves
    during that run. *)
Inductive event :=
| Tick (b : bool)
| FetchLinks (product : string) (results_per_query : Z)
             (chk_tender chk_supplier chk_prev chk_lit : bool)
             (api : request → response)
| Click (k : kind) (c : click)
| Ask (requests_get_text : string → outcome string)
      (parse_html : string → outcome BeautifulSoup)
      (gemini : string → outcome string)
      (product : string) (results_per_query : Z).

Section Session.

Variable urlparse : string → outcome ParseResult.

(** The session after the run, however the run ended. *)
Definition step (ev : event) (st : session) : session :=
  match ev with
  | Tick b => set_only_eng b st
  | FetchLinks product results_per_query chk_tender chk_supplier chk_prev chk_lit api =>
      state_of (fetch_links urlparse product results_per_query
                  chk_tender chk_supplier chk_prev chk_lit api st)
  | Click k c => click_page urlparse k c st
  | Ask requests_get_text parse_html gemini product results_per_query =>
      state_of (generate_questions requests_get_text parse_html gemini
                  product results_per_query st)
  end.

Definition run_events (evs : list event) (st : session) : session :=
  foldl (λ st ev, step ev st) st evs.

End Session.

(** An event in which the search API, if "Fetch links" is pressed, does not
    repeat a URL within a page. *)
Definition tidy (ev : event) : Prop :=
  match ev with
  | FetchLinks _ _ _ _ _ _ api => api_without_repeats api
  | _ => True
  end.

(** An event other than "Fetch links". *)
Definition no_fetch (ev : event) : Prop :=
  match ev with
  | FetchLinks _ _ _ _ _ _ _ => False
  | _ => True
  end.

(** ** Statements for the further properties *)

(** A character that does not end a line. *)
Definition no_break (c : ascii) : bool := negb (Str.is_linebreak c).

(** * Properties *)

(** ** Facts about the string functions *)

(** [splitlines] and [strip] on a few inputs, as Python answers them. *)
Example splitlines_examples :
  Str.splitlines "" = []
  ∧ Str.splitlines ("a" +:+ String "010" "") = ["a"]
  ∧ Str.splitlines (String "010" "") = [""]
  ∧ Str.splitlines ("a" +:+ String "013" (String "010" "b")) = ["a"; "b"]
  ∧ Str.splitlines ("a" +:+ String "010" (String "010" "b")) = ["a"; ""; "b"]
  ∧ Str.splitlines ("a" +:+ String "013" (String "013" "b")) = ["a"; ""; "b"]
  ∧ Str.strip (String "009" " 1. a b " +:+ String "013" "") = "1. a b"
  ∧ Str.lower "SpringerLink.COM" = "springerlink.com".
Proof. split_and!; reflexivity. Qed.

Lemma startswith_spec p s :
  Str.startswith p s = true ↔ ∃ r, s = p +:+ r.
Proof.
  revert s. induction p as [|a p IH]; intros s; simpl.
  - split; [intros _; by exists s | done].
  - destruct s as [|b s].
    + split; [done | intros [r Hr]; discriminate].
    + case_decide as Hab.
      * subst b. rewrite IH. split; intros [r Hr]; exists r.
        -- by rewrite Hr.
        -- by injection Hr.
      * split; [done | intros [r Hr]; injection Hr; congruence].
Qed.

Lemma contains_spec d s :
  Str.contains d s = true ↔ ∃ pre post, s = pre +:+ d +:+ post.
Proof.
  induction s as [|b s IH]; simpl.
  - rewrite orb_false_r, startswith_spec. split.
    + intros [r Hr]. by exists "", r.
    + intros (pre & post & H). destruct pre; [by exists post|discriminate].
  - rewrite orb_true_iff, startswith_spec, IH. split.
    + intros [[r Hr] | (pre & post & H)].
      * by exists "", r.
      * exists (String b pre), post. simpl. by rewrite H.
    + intros (pre & post & H). destruct pre as [|c pre]; simpl in H.
      * left. by exists post.
      * right. exists pre, post. by injection H.
Qed.

Lemma trusted_domains_lower d :
  d ∈ TRUSTED_LIT_DOMAINS → Str.lower d = d.
Proof.
  unfold TRUSTED_LIT_DOMAINS. rewrite !elem_of_cons, elem_of_nil.
  intros H. repeat (destruct H as [-> | H]; [reflexivity |]). done.
Qed.

Lemma any_gen_pure {A} (f : A → bool) (l : list A) :
  any_gen (λ x, Ok (f x)) l = Ok (existsb f l).
Proof.
  induction l as [|x l IH]; simpl; [done|].
  unfold mbind, outcome_bind. destruct (f x); simpl; [done | apply IH].
Qed.

Lemma any_gen_raise {A} (f : A → outcome bool) (x : A) (l : list A) (e : exn) :
  (∀ y, f y = Raise e) → any_gen f (x :: l) = Raise e.
Proof. intros H. simpl. by rewrite H. Qed.

(** C7, as stated, fails: the test reads the network location, which
    holds the userinfo and the port beside the host.  For
    [https://arxiv@evil.example/x] the network location is
    [arxiv@evil.example] and the host is [evil.example]: no allow-listed
    substring occurs in the host, and [is_scholar_url] returns [True]. *)
Lemma userinfo_passes_for_host :
  urlparse_userinfo "https://arxiv@evil.example/x"
    = Ok {| scheme := "https"; netloc := "arxiv@evil.example"; path := "/x";
            params := ""; query := ""; fragment := "" |}
  ∧ hostname "arxiv@evil.example" = "evil.example"
  ∧ is_scholar_url urlparse_userinfo "https://arxiv@evil.example/x" = Ok true
  ∧ ¬ host_allow_listed
        {| scheme := "https"; netloc := "arxiv@evil.example"; path := "/x";
           params := ""; query := ""; fragment := "" |}.
Proof.
  split_and!; [reflexivity | reflexivity | reflexivity |].
  intros (d & Hd & pre & post & Hocc).
  rewrite (trusted_domains_lower d Hd) in Hocc.
  assert (Str.contains d (Str.lower (hostname "arxiv@evil.example")) = true) as Hc
    by (apply contains_spec; eauto).
  unfold TRUSTED_LIT_DOMAINS in Hd. rewrite !elem_of_cons, elem_of_nil in Hd.
  repeat (destruct Hd as [-> | Hd]; [by vm_compute in Hc|]). done.
Qed.

(** C7, amended: [is_scholar_url] always returns (never raises); it returns [True]
    exactly when [urlparse] yields a result whose network location contains,
    letter case ignored, one of the allow-listed substrings; when [urlparse]
    raises on the input it returns [False]. *)
Theorem is_scholar_url_spec (urlparse : string → outcome ParseResult) (url : string) :
  ∃ b, is_scholar_url urlparse url = Ok b
       ∧ (b = true ↔
          ∃ r, urlparse url = Ok r
               ∧ ∃ d, d ∈ TRUSTED_LIT_DOMAINS ∧ occurs_ignoring_case d (netloc r))
       ∧ (raises (urlparse url) → b = false).
Proof.
  unfold is_scholar_url. destruct (urlparse url) as [r | e] eqn:Hp.
  - change (λ d, r0 ← Ok r; mret (Str.contains d (Str.lower (netloc r0))))
      with (λ d, Ok (Str.contains d (Str.lower (netloc r)))).
    rewrite any_gen_pure. simpl.
    exists (existsb (λ d, Str.contains d (Str.lower (netloc r))) TRUSTED_LIT_DOMAINS).
    split; [done|]. split.
    + rewrite existsb_exists. split.
      * intros (d & Hd & Hc). exists r. split; [done|]. exists d.
        apply list_elem_of_In in Hd. split; [done|].
        apply contains_spec in Hc as (pre & post & Hc).
        exists pre, post. by rewrite (trusted_domains_lower d Hd).
      * intros (r' & Hr' & d & Hd & pre & post & Hc).
        injection Hr' as <-. exists d. split; [by apply list_elem_of_In|].
        apply contains_spec. exists pre, post.
        by rewrite (trusted_domains_lower d Hd) in Hc.
    + intros [e He]. discriminate.
  - exists false. split.
    + unfold TRUSTED_LIT_DOMAINS. by rewrite (any_gen_raise _ _ _ e).
    + split; [|done]. split; [done|]. intros (r & Hr & _). discriminate.
Qed.

Lemma is_scholar_url_spec_witness :
  is_scholar_url urlparse_example "https://ArXiv.org/abs/2401.1" = Ok true
  ∧ is_scholar_url urlparse_example "http://[::1" = Ok false.
Proof.
  split.
  - destruct (is_scholar_url_spec urlparse_example "https://ArXiv.org/abs/2401.1")
      as (b & -> & Hiff & _).
    f_equal. apply Hiff. eexists. split; [reflexivity|].
    exists "arxiv". split; [compute_done|]. by exists "", ".org".
  - destruct (is_scholar_url_spec urlparse_example "http://[::1")
      as (b & -> & _ & Hraise).
    f_equal. apply Hraise. by exists ValueError.
Defined.

(** ** The search client *)

Lemma is_scholar_url_returns urlparse u : returns (is_scholar_url urlparse u).
Proof.
  unfold returns, is_scholar_url.
  destruct (any_gen _ TRUSTED_LIT_DOMAINS) as [b | e]; simpl; eauto.
Qed.

Lemma filter_gen_total {A} (f : A → outcome bool) (l : list A) :
  (∀ x, returns (f x)) →
  ∃ r, filter_gen f l = Ok r ∧ sublist r l ∧ ∀ x, x ∈ r ↔ x ∈ l ∧ f x = Ok true.
Proof.
  intros Hf. induction l as [|x l (r & Hr & Hsub & Hin)]; simpl.
  - exists []. split_and!; [done | done |]. intros x. rewrite elem_of_nil. tauto.
  - destruct (Hf x) as [b Hb]. rewrite Hb, Hr. simpl. destruct b.
    + exists (x :: r). split_and!; [done | by constructor |].
      intros y. rewrite !elem_of_cons, Hin. split.
      * intros [-> | [Hy Hfy]]; [by split; [left|] | by split; [right|]].
      * intros [[-> | Hy] Hfy]; [by left | by right].
    + exists r. split_and!; [done | by constructor |].
      intros y. rewrite elem_of_cons, Hin. split; [intros [Hy Hfy]; by split; [right|] |].
      intros [[-> | Hy] Hfy]; [congruence | done].
Qed.

Lemma slice_to_sublist {A} (n : Z) (l : list A) : sublist (slice_to n l) l.
Proof. unfold slice_to. case_match; apply sublist_take. Qed.

Lemma slice_to_length {A} (n : Z) (l : list A) :
  0 ≤ n → Z.of_nat (length (slice_to n l)) ≤ n.
Proof.
  intros Hn. unfold slice_to. destruct (Z.leb_spec 0 n); [|lia].
  rewrite length_take. lia.
Qed.

Lemma raw_links_truthy results u :
  u ∈ raw_links results → Str.truthy u = true.
Proof.
  unfold raw_links. rewrite list_elem_of_omap. intros (x & _ & Hx).
  destruct (opt_truthy (py_or (link x) (url x))) eqn:Ht; [|done].
  rewrite Hx in Ht. done.
Qed.

(** The request is answered: [serp_links] returns, and what it returns is
    drawn from the URLs of the answer, minus the rejected ones. *)
Lemma serp_links_answered urlparse api st q n start engine lit kind results :
  api {| req_engine := engine; req_q := q; req_num := n; req_start := start |}
    = Json results →
  ∃ found, serp_links urlparse api st q n start engine lit kind = Ok found
    ∧ sublist found (raw_links (default [] results))
    ∧ (∀ k, kind = Some k → ∀ u, u ∈ found → u ∉ rejected st k)
    ∧ (lit = true → ∀ u, u ∈ found → is_scholar_url urlparse u = Ok true)
    ∧ (lit = false → kind = None → found = slice_to n (raw_links (default [] results))).
Proof.
  intros Hapi. unfold serp_links. rewrite Hapi.
  set (raw := raw_links (default [] results)).
  assert (∃ ls, (if lit then filter_gen (is_scholar_url urlparse) raw
                 else Ok (slice_to n raw)) = Ok ls
                ∧ sublist ls raw
                ∧ (lit = true → ∀ u, u ∈ ls → is_scholar_url urlparse u = Ok true)
                ∧ (lit = false → ls = slice_to n raw))
    as (ls & -> & Hsub & Hlit & Hnolit).
  { destruct lit.
    - destruct (filter_gen_total (is_scholar_url urlparse) raw)
        as (r & Hr & Hs & Hin); [apply is_scholar_url_returns|].
      exists r. split_and!; [done | done | | done]. intros _ u Hu. by apply Hin.
    - exists (slice_to n raw). split_and!; [done | apply slice_to_sublist | done | done]. }
  simpl. eexists. split; [done|]. destruct kind as [k|].
  - split_and!.
    + etrans; [apply sublist_filter | done].
    + intros k' [= <-] u Hu. by apply list_elem_of_filter in Hu as [? _].
    + intros Ht u Hu. apply list_elem_of_filter in Hu as [_ Hu]. by apply Hlit.
    + done.
  - split_and!; [done | done | done | ]. intros Hl _. by apply Hnolit.
Qed.

Lemma serp_links_failed urlparse api st q n start engine lit kind e :
  api {| req_engine := engine; req_q := q; req_num := n; req_start := start |}
    = Failed e →
  serp_links urlparse api st q n start engine lit kind = Raise e.
Proof. intros Hapi. unfold serp_links. by rewrite Hapi. Qed.

(** ** Link curation *)

Lemma remove_first_elem x y l :
  y ∈ remove_first x l → y ∈ l.
Proof.
  induction l as [|z l IH]; simpl; [done|].
  case_decide; rewrite ?elem_of_cons; [by right | intros [->|?]; auto].
Qed.

Lemma remove_first_NoDup x l : NoDup l → NoDup (remove_first x l).
Proof.
  induction 1 as [|z l Hz Hl IH]; simpl; [constructor|].
  case_decide; [done|]. constructor; [|done].
  intros Hin. by apply Hz, (remove_first_elem x).
Qed.

Lemma remove_first_gone x l : NoDup l → x ∉ remove_first x l.
Proof.
  induction 1 as [|z l Hz Hl IH]; simpl; [apply not_elem_of_nil|].
  case_decide as Hxz; [by subst|].
  rewrite elem_of_cons. intros [? | ?]; [done | by apply IH].
Qed.

Lemma append_new_spec acc extra ls :
  ∃ added, append_new acc ls extra = ls ++ added
    ∧ (∀ u, u ∈ added → u ∈ extra ∧ (u ∉ ls) ∧ (u ∉ acc))
    ∧ (NoDup ls → NoDup (ls ++ added)).
Proof.
  unfold append_new. revert ls.
  induction extra as [|u extra IH]; intros ls; simpl.
  - exists []. rewrite app_nil_r. split_and!; [done | | done].
    intros u. by rewrite elem_of_nil.
  - case_decide as Hu.
    + destruct (IH (ls ++ [u])) as (added & Heq & Hin & Hnd).
      exists (u :: added). rewrite Heq, <- app_assoc. split_and!; [done | |].
      * intros v. rewrite elem_of_cons. intros [-> | Hv].
        -- split_and!; [by left | apply Hu | apply Hu].
        -- destruct (Hin v Hv) as (? & Hnot & ?).
           rewrite elem_of_app in Hnot. split_and!; [by right | tauto | done].
      * intros Hls.
        replace (ls ++ u :: added) with ((ls ++ [u]) ++ added)
          by (by rewrite <- app_assoc).
        apply Hnd.
        apply list.NoDup_app. split_and!; [done | | apply NoDup_singleton].
        intros v Hv. rewrite list_elem_of_singleton. intros ->. by destruct Hu.
    + destruct (IH ls) as (added & Heq & Hin & Hnd).
      exists added. split_and!; [done | | done].
      intros v Hv. destruct (Hin v Hv) as (? & ? & ?). split_and!; [by right | done | done].
Qed.

Lemma combined_elem st k u :
  u ∈ combined st k ↔ u ∈ links st k ∨ u ∈ accepted st k.
Proof.
  unfold combined. rewrite elem_of_app, list_elem_of_filter, elem_of_elements.
  destruct (decide (u ∈ links st k)); tauto.
Qed.

Lemma empty_store_curated st : empty_store st → ∀ k, curated st k.
Proof.
  intros He k. destruct (He k) as (Hl & Ha & Hr). unfold curated.
  rewrite Hl, Ha, Hr. split_and!; [constructor | | set_solver].
  intros u. by rewrite elem_of_nil.
Qed.

Lemma session_defaults_empty : empty_store session_defaults.
Proof. by intros k. Qed.

Ltac fn_simpl :=
  simpl; rewrite ?fn_lookup_insert; simpl.

Section Curation.

Variable urlparse : string → outcome ParseResult.

(** A click in the picker of [k] leaves the other categories alone. *)
Lemma handle_frame k k' c st :
  k ≠ k' →
  links (handle urlparse k c st) k' = links st k'
  ∧ accepted (handle urlparse k c st) k' = accepted st k'
  ∧ rejected (handle urlparse k c st) k' = rejected st k'
  ∧ start_index (handle urlparse k c st) k' = start_index st k'.
Proof.
  intros Hk. destruct c as [i | i | new_url | api]; simpl.
  - unfold on_save. destruct (combined st k !! i); [|done].
    case_decide; [|done]. simpl. by rewrite fn_lookup_insert_ne.
  - unfold on_drop. destruct (combined st k !! i); [|done].
    case_decide; simpl; by rewrite ?fn_lookup_insert_ne.
  - unfold on_add. destruct (Str.truthy new_url); [|done].
    case_decide; [|done]. simpl. by rewrite fn_lookup_insert_ne.
  - unfold on_more. destruct (queries st k) as [meta|]; [|done].
    destruct (n_results st) as [n|]; [|done].
    destruct (serp_links _ _ _ _ _ _ _ _ _) as [extra|e]; [|done].
    simpl. by rewrite !fn_lookup_insert_ne.
Qed.

Lemma on_save_curated k i st : curated st k → curated (on_save k i st) k.
Proof.
  intros (Hnd & Hlr & Har). unfold on_save.
  destruct (combined st k !! i) as [url|] eqn:Hi; [|done].
  case_decide; [|done].
  apply list_elem_of_lookup_2, combined_elem in Hi.
  unfold curated. fn_simpl. split_and!; [done | done |].
  assert (url ∉ rejected st k) by (destruct Hi; [auto | set_solver]).
  set_solver.
Qed.

Lemma on_drop_curated k i st : curated st k → curated (on_drop k i st) k.
Proof.
  intros (Hnd & Hlr & Har). unfold on_drop.
  destruct (combined st k !! i) as [url|] eqn:Hi; [|done].
  fn_simpl. case_decide as Hin; unfold curated; fn_simpl.
  - split_and!.
    + by apply remove_first_NoDup.
    + intros u Hu. assert (u ≠ url).
      { intros ->. by apply (remove_first_gone url (links st k)). }
      apply remove_first_elem, Hlr in Hu. set_solver.
    + set_solver.
  - split_and!; [done | | set_solver].
    intros u Hu. assert (u ≠ url) by (by intros ->).
    apply Hlr in Hu. set_solver.
Qed.

Lemma on_add_curated k new_url st : curated st k → curated (on_add k new_url st) k.
Proof.
  intros (Hnd & Hlr & Har). unfold on_add.
  destruct (Str.truthy new_url); [|done].
  case_decide as Hnew; [|done]. destruct Hnew as [Hnl Hnr].
  unfold curated. fn_simpl. split_and!; [| | done].
  - apply list.NoDup_app. split_and!; [done | | apply NoDup_singleton].
    intros v Hv. rewrite list_elem_of_singleton. by intros ->.
  - intros u. rewrite elem_of_app, list_elem_of_singleton.
    intros [Hu | ->]; auto.
Qed.

(** What the "More suggestions" handler does to its own category. *)
Lemma on_more_cases api k st :
  (on_more urlparse api k st = Ok st ∧ queries st k = None)
  ∨ (∃ e, on_more urlparse api k st = Raise e)
  ∨ (∃ meta n results st' added,
       queries st k = Some meta ∧ n_results st = Some n
       ∧ api {| req_engine := engine meta; req_q := q meta; req_num := n;
                req_start := start_index st k |} = Json results
       ∧ on_more urlparse api k st = Ok st'
       ∧ links st' k = links st k ++ added
       ∧ (∀ u, u ∈ added →
            u ∈ raw_links (default [] results)
            ∧ (u ∉ rejected st k) ∧ (u ∉ links st k) ∧ (u ∉ accepted st k))
       ∧ (NoDup (links st k) → NoDup (links st' k))
       ∧ start_index st' k = start_index st k + n
       ∧ accepted st' = accepted st ∧ rejected st' = rejected st
       ∧ queries st' = queries st ∧ n_results st' = n_results st).
Proof.
  unfold on_more. destruct (queries st k) as [meta|] eqn:Hq; [|by left].
  right. destruct (n_results st) as [n|] eqn:Hn; [|left; eauto].
  destruct (api {| req_engine := engine meta; req_q := q meta; req_num := n;
                   req_start := start_index st k |}) as [e | results] eqn:Hapi.
  { left. exists e. by rewrite (serp_links_failed _ _ _ _ _ _ _ _ _ e Hapi). }
  right.
  destruct (serp_links_answered urlparse api st (q meta) n (start_index st k)
              (engine meta) (lit meta) (Some k) results Hapi)
    as (extra & -> & Hsub & Hrej & _).
  destruct (append_new_spec (accepted st k) extra (links st k))
    as (added & Heq & Hin & Hnd).
  simpl. eexists meta, n, results, _, added.
  split_and!; try done; fn_simpl; try done.
  - intros u Hu. destruct (Hin u Hu) as (Hext & Hnl & Hna).
    split_and!; [| by apply (Hrej k) | done | done].
    by apply (elem_of_sublist extra).
  - by rewrite Heq.
Qed.

Lemma on_more_curated api k st st' :
  on_more urlparse api k st = Ok st' → curated st k → curated st' k.
Proof.
  intros Hm (Hnd & Hlr & Har).
  destruct (on_more_cases api k st)
    as [[Hsame _] | [[e He] | (meta & n & results & st'' & added & _ & _ & _
          & Hok & Hlinks & Hadded & Hnd' & _ & Hacc & Hrej & _)]].
  - rewrite Hsame in Hm. injection Hm as <-. done.
  - congruence.
  - rewrite Hok in Hm. injection Hm as <-. unfold curated.
    rewrite Hacc, Hrej. split_and!; [auto | | done].
    intros u. rewrite Hlinks, elem_of_app. intros [Hu | Hu]; [auto|].
    by apply Hadded.
Qed.

Lemma handle_curated k c st : curated st k → curated (handle urlparse k c st) k.
Proof.
  intros Hc. destruct c as [i | i | new_url | api]; simpl.
  - by apply on_save_curated.
  - by apply on_drop_curated.
  - by apply on_add_curated.
  - destruct (on_more urlparse api k st) as [st'|e] eqn:Hm; [|done].
    by apply (on_more_curated api k st).
Qed.

Lemma handle_curated_all k c st :
  (∀ k', curated st k') → ∀ k', curated (handle urlparse k c st) k'.
Proof.
  intros Hc k'. destruct (decide (k = k')) as [<- | Hne].
  - by apply handle_curated.
  - destruct (handle_frame k k' c st Hne) as (Hl & Ha & Hr & _).
    unfold curated. rewrite Hl, Ha, Hr. apply Hc.
Qed.

Lemma click_page_cases k c st :
  click_page urlparse k c st = st
  ∨ click_page urlparse k c st = handle urlparse k c st.
Proof.
  unfold click_page, link_picker. destruct (any_links st); [|by left].
  case_decide; auto.
Qed.

Lemma run_handlers_curated cs st :
  (∀ k, curated st k) → ∀ k, curated (run_handlers urlparse cs st) k.
Proof.
  unfold run_handlers. revert st.
  induction cs as [|[k c] cs IH]; intros st Hc; simpl; [done|].
  apply IH. by apply handle_curated_all.
Qed.

Lemma run_page_curated cs st :
  (∀ k, curated st k) → ∀ k, curated (run_page urlparse cs st) k.
Proof.
  unfold run_page. revert st.
  induction cs as [|[k c] cs IH]; intros st Hc; [done|].
  change (∀ k', curated
            (foldl (λ st c, click_page urlparse c.1 c.2 st)
                   (click_page urlparse k c st) cs) k').
  apply IH. destruct (click_page_cases k c st) as [-> | ->]; [done|].
  by apply handle_curated_all.
Qed.

End Curation.

Lemma curatedb_correct st k : curatedb st k = true → curated st k.
Proof.
  unfold curatedb, curated. rewrite !andb_true_iff, forallb_forall.
  intros [[Hnd Hlr] Har]. split_and!.
  - by apply bool_decide_eq_true in Hnd.
  - intros u Hu. apply list_elem_of_In, Hlr in Hu.
    by apply bool_decide_eq_true in Hu.
  - by apply bool_decide_eq_true in Har.
Qed.

(** ** The "Fetch links" handler *)

Lemma and_then_done r f st' :
  and_then r f = Done st' → ∃ st, r = Done st ∧ f st = Done st'.
Proof. destruct r as [st | st e]; simpl; [eauto | done]. Qed.

Lemma when_fetch_kind_done urlparse b api k query is_lit n st st' :
  when b (fetch_kind urlparse api k query is_lit n) st = Done st' →
  start_index st' = (if b then <[k := n]> (start_index st) else start_index st)
  ∧ n_results st' = n_results st.
Proof.
  unfold when, fetch_kind. destruct b.
  - destruct (serp_links _ _ _ _ _ _ _ _ _) as [found | e]; [|done].
    by intros [= <-].
  - by intros [= <-].
Qed.

Lemma and_then_state (P : session → Prop) r f :
  P (state_of r) → (∀ st, P st → P (state_of (f st))) → P (state_of (and_then r f)).
Proof. destruct r as [st | st e]; simpl; auto. Qed.

Lemma fetch_kind_curated urlparse api k query is_lit n st :
  api_without_repeats api →
  (∀ k', curated st k') →
  ∀ k', curated (state_of (fetch_kind urlparse api k query is_lit n st)) k'.
Proof.
  intros Hapi Hc k'. unfold fetch_kind.
  set (st1 := set_query k _ st).
  set (req := {| req_engine := "google"; req_q := query; req_num := n; req_start := 0 |}).
  destruct (api req) as [e | results] eqn:Hreq.
  - rewrite (serp_links_failed urlparse api st1 query n 0 "google" is_lit (Some k) e Hreq).
    apply Hc.
  - destruct (serp_links_answered urlparse api st1 query n 0 "google" is_lit (Some k)
                results Hreq) as (found & -> & Hsub & Hrej & _).
    simpl. destruct (Hc k') as (Hnd & Hlr & Har).
    unfold curated. simpl. destruct (decide (k = k')) as [<- | Hne].
    + rewrite fn_lookup_insert. split_and!; [| by apply (Hrej k) | done].
      apply (sublist_NoDup found (raw_links (default [] results))); [|done].
      by apply (Hapi req).
    + by rewrite fn_lookup_insert_ne.
Qed.

(** "Fetch links" keeps the invariant when the API does not repeat a URL
    within a page: every state reached through the page is then [curated]. *)
Lemma fetch_links_curated urlparse product results_per_query
    chk_tender chk_supplier chk_prev chk_lit api st :
  api_without_repeats api →
  (∀ k, curated st k) →
  ∀ k, curated (state_of (fetch_links urlparse product results_per_query
                            chk_tender chk_supplier chk_prev chk_lit api st)) k.
Proof.
  intros Hapi Hc. unfold fetch_links. destruct (Str.truthy product); [|done].
  assert (∀ b k query is_lit n st,
            (∀ k', curated st k') →
            ∀ k', curated (state_of (when b (fetch_kind urlparse api k query is_lit n) st)) k')
    as Hwhen.
  { intros [] k query is_lit n st0 Hst0; simpl; [|done].
    by apply fetch_kind_curated. }
  repeat (apply (and_then_state (λ st, ∀ k, curated st k)); [|by apply Hwhen]).
  simpl. intros k. destruct (Hc k) as (_ & _ & Har).
  split_and!; [constructor | | done]. intros u. by rewrite elem_of_nil.
Qed.

(** When the API repeats a URL within the first page the candidate list
    starts with a duplicate; dropping the URL then removes one copy only, and
    the copy that is left can be saved again. *)
Example repeated_result_survives_drop :
  let st := run_page urlparse_whole [(K_t, Drop 0%nat); (K_t, Save 0%nat)]
              (state_of (fetch_links urlparse_whole "ev" 3 true false false false
                           (api_answering ["A"; "A"]) session_defaults)) in
  links st K_t = ["A"] ∧ "A" ∈ accepted st K_t ∧ "A" ∈ rejected st K_t.
Proof. split_and!; by vm_compute. Qed.

(** C6, as stated, fails for the literature category: with 3 results per
    query its cursor is set to 6, the count asked of the search client. *)
Lemma literature_cursor_is_doubled :
  ∃ st', fetch_links urlparse_whole "ev" 3 false false false true
           (api_answering []) session_defaults = Done st'
         ∧ start_index st' K_lit = 6 ∧ start_index st' K_lit ≠ 3.
Proof. eexists. split_and!; [reflexivity | reflexivity | by vm_compute]. Qed.

(** C6, amended: when the product name is not empty and the handler runs to
    its end, the cursor of every ticked category is the count that was asked
    of the search client for it: the results-per-query setting for tenders,
    suppliers and previous tenders, twice that for literature.  The cursor of
    a category that is not ticked is left as it was. *)
Theorem fetch_links_sets_cursor urlparse product results_per_query
    chk_tender chk_supplier chk_prev chk_lit api st st' :
  Str.truthy product = true →
  fetch_links urlparse product results_per_query
              chk_tender chk_supplier chk_prev chk_lit api st = Done st' →
  n_results st' = Some results_per_query
  ∧ ∀ k,
      start_index st' k =
        if ticked chk_tender chk_supplier chk_prev chk_lit k
        then requested_count results_per_query k
        else start_index st k.
Proof.
  intros Hp. unfold fetch_links. rewrite Hp. intros Hrun.
  apply and_then_done in Hrun as (s3 & Hrun & H4).
  apply and_then_done in Hrun as (s2 & Hrun & H3).
  apply and_then_done in Hrun as (s1 & Hrun & H2).
  apply and_then_done in Hrun as (s0 & [= <-] & H1).
  apply when_fetch_kind_done in H1 as [H1 N1], H2 as [H2 N2],
    H3 as [H3 N3], H4 as [H4 N4].
  split; [by rewrite N4, N3, N2, N1|].
  intros k. rewrite H4, H3, H2, H1.
  destruct k, chk_tender, chk_supplier, chk_prev, chk_lit; reflexivity.
Qed.

Lemma fetch_links_sets_cursor_witness :
  start_index example_session K_t = 2
  ∧ start_index example_session K_lit = 0.
Proof.
  destruct (fetch_links_sets_cursor urlparse_whole "ev charger" 2 true true false false
              (api_answering ["A"; "B"]) session_defaults example_session
              eq_refl eq_refl) as [_ H].
  split; [apply (H K_t) | apply (H K_lit)].
Defined.

(** ** Reachable sessions *)

Lemma handle_keeps_query urlparse k c st :
  queries (handle urlparse k c st) = queries st
  ∧ n_results (handle urlparse k c st) = n_results st.
Proof.
  destruct c as [i | i | new_url | api]; simpl.
  - unfold on_save. destruct (combined st k !! i); [|done]. by case_decide.
  - unfold on_drop. destruct (combined st k !! i); [|done]. by case_decide.
  - unfold on_add. destruct (Str.truthy new_url); [|done]. by case_decide.
  - destruct (on_more_cases urlparse api k st)
      as [[-> _] | [[e ->] | (meta & n & results & st' & added & _ & _ & _
            & -> & _ & _ & _ & _ & _ & _ & Hq & Hn)]]; done.
Qed.

Lemma click_page_query_stored urlparse k c st :
  query_stored st → query_stored (click_page urlparse k c st).
Proof.
  intros [Hq Hn]. unfold click_page, link_picker.
  destruct (any_links st); [|done]. case_decide as Hdrawn; [done|].
  destruct (handle_keeps_query urlparse k c st) as [Hqs Hns].
  unfold query_stored. rewrite Hqs, Hns. split; [|done].
  intros k'. destruct (decide (k = k')) as [<- | Hne].
  - right. by destruct (Hq k).
  - destruct (handle_frame urlparse k k' c st Hne) as (-> & -> & _). apply Hq.
Qed.

Lemma fetch_kind_query_stored urlparse api k query is_lit n st :
  is_Some (n_results st) → query_stored st →
  let st' := state_of (fetch_kind urlparse api k query is_lit n st) in
  is_Some (n_results st') ∧ query_stored st'.
Proof.
  intros Hn [Hq _]. unfold fetch_kind.
  assert (∀ k', (links st k' = [] ∧ accepted st k' = ∅)
                ∨ is_Some (<[k := Some {| q := query; lit := is_lit; engine := "google" |}]>
                             (queries st) k')) as Hq'.
  { intros k'. destruct (decide (k = k')) as [<- | Hne].
    - right. by rewrite fn_lookup_insert.
    - rewrite fn_lookup_insert_ne by done. apply Hq. }
  destruct (serp_links _ _ _ _ _ _ _ _ _) as [found | e]; simpl.
  - split; [done|]. split; [|by right]. simpl. intros k'.
    destruct (decide (k = k')) as [<- | Hne].
    + right. by rewrite fn_lookup_insert.
    + rewrite !fn_lookup_insert_ne by done. apply Hq.
  - split; [done|]. split; [done | by right].
Qed.

Lemma fetch_links_query_stored urlparse product results_per_query
    chk_tender chk_supplier chk_prev chk_lit api st :
  query_stored st →
  query_stored (state_of (fetch_links urlparse product results_per_query
                            chk_tender chk_supplier chk_prev chk_lit api st)).
Proof.
  intros Hst. unfold fetch_links. destruct (Str.truthy product); [|done].
  assert (∀ b k query is_lit n st,
            is_Some (n_results st) ∧ query_stored st →
            let st' := state_of (when b (fetch_kind urlparse api k query is_lit n) st) in
            is_Some (n_results st') ∧ query_stored st') as Hwhen.
  { intros [] k query is_lit n st0 [Hn0 Hq0]; simpl; [|done].
    by apply fetch_kind_query_stored. }
  apply (and_then_state (λ st, is_Some (n_results st) ∧ query_stored st)).
  2: { intros st0 Hst0. by apply Hwhen. }
  repeat (apply (and_then_state (λ st, is_Some (n_results st) ∧ query_stored st));
          [|by apply Hwhen]).
  simpl. split; [done|]. destruct Hst as [Hq _]. split; [|by right].
  simpl. intros k. destruct (Hq k) as [[_ Ha] | Hs]; [by left | by right].
Qed.

Lemma fetch_text_cases get parse st url max_chars :
  fetch_text get parse st url max_chars = Ok ""
  ∨ ∃ txt, fetch_text get parse st url max_chars = Ok (Str.slice_to max_chars txt).
Proof.
  unfold fetch_text. destruct (get url) as [text|e]; simpl; [|by left].
  destruct (parse text) as [soup|e]; simpl; [|by left].
  destruct (only_eng st && negb (is_english soup)); simpl; [by left|].
  destruct (get_text soup) as [txt|e]; simpl; [|by left]. right. by exists txt.
Qed.

Lemma map_gen_returns {A B} (f : A → outcome B) (l : list A) :
  (∀ x, returns (f x)) → returns (map_gen f l).
Proof.
  intros Hf. induction l as [|x l [r Hr]]; simpl; [by exists []|].
  destruct (Hf x) as [y ->]. rewrite Hr. simpl. by eexists.
Qed.

Lemma join_text_returns get parse st results_per_query L :
  returns (join_text get parse st results_per_query L).
Proof.
  unfold join_text.
  destruct (map_gen_returns (λ u, fetch_text get parse st u 8000)
              (slice_to (results_per_query * 2) L)) as [texts ->].
  - intros u. destruct (fetch_text_cases get parse st u 8000) as [-> | [txt ->]];
      by eexists.
  - simpl. by eexists.
Qed.

(** How the "Generate Questions" handler can end. *)
Lemma generate_questions_cases get parse gemini product results_per_query st :
  ((links st K_t = [] ∨ links st K_s = [])
   ∧ generate_questions get parse gemini product results_per_query st = Done st)
  ∨ (∃ prompt e, gemini prompt = Raise e
       ∧ generate_questions get parse gemini product results_per_query st
         = Crashed st e)
  ∨ (∃ prompt_t answer_t prompt_s e,
       gemini prompt_t = Ok answer_t ∧ gemini prompt_s = Raise e
       ∧ generate_questions get parse gemini product results_per_query st
         = Crashed (set_t_qs (extract_questions answer_t) st) e)
  ∨ (∃ prompt_t answer_t prompt_s answer_s,
       gemini prompt_t = Ok answer_t ∧ gemini prompt_s = Ok answer_s
       ∧ links st K_t ≠ [] ∧ links st K_s ≠ []
       ∧ generate_questions get parse gemini product results_per_query st
         = Done (set_s_qs (extract_questions answer_s)
                   (set_t_qs (extract_questions answer_t) st))).
Proof.
  unfold generate_questions.
  destruct (bool_decide (links st K_t ≠ [])) eqn:Ht; simpl.
  2: { left. apply bool_decide_eq_false in Ht. split; [|done].
       left. by apply dec_stable. }
  destruct (bool_decide (links st K_s ≠ [])) eqn:Hs; simpl.
  2: { left. apply bool_decide_eq_false in Hs. split; [|done].
       right. by apply dec_stable. }
  apply bool_decide_eq_true in Ht, Hs.
  destruct (join_text_returns get parse st results_per_query
              (links st K_t ++ links st K_prev)) as [t_docs ->].
  destruct (join_text_returns get parse st results_per_query (links st K_s))
    as [s_docs ->].
  destruct (join_text_returns get parse st results_per_query (links st K_lit))
    as [l_docs ->].
  simpl. right.
  destruct (gemini _) as [answer_t | e] eqn:Hgt.
  2: { left. eauto. }
  right. destruct (gemini _) as [answer_s | e] eqn:Hgs in |- *.
  - right. eexists _, _, _, _. eauto.
  - left. eexists _, _, _, _. eauto.
Qed.

Lemma generate_questions_curation get parse gemini product results_per_query st :
  let st' := state_of (generate_questions get parse gemini product results_per_query st) in
  links st' = links st ∧ accepted st' = accepted st ∧ rejected st' = rejected st
  ∧ queries st' = queries st ∧ start_index st' = start_index st
  ∧ n_results st' = n_results st ∧ only_eng st' = only_eng st.
Proof.
  destruct (generate_questions_cases get parse gemini product results_per_query st)
    as [[_ ->] | [(p & e & _ & ->) | [(p & a & p' & e & _ & _ & ->)
         | (p & a & p' & a' & _ & _ & _ & _ & ->)]]]; done.
Qed.

Lemma reachable_query_stored urlparse st :
  reachable urlparse st → query_stored st.
Proof.
  induction 1 as [| st b _ IH | st p n c1 c2 c3 c4 api _ IH | st k c _ IH
                  | st get parse gemini p n _ IH].
  - split; [by left | by left].
  - done.
  - by apply fetch_links_query_stored.
  - by apply click_page_query_stored.
  - unfold query_stored.
    destruct (generate_questions_curation get parse gemini p n st)
      as (-> & -> & _ & -> & _ & -> & _). exact IH.
Qed.

(** Whenever a picker is drawn in a reachable session, the query of its
    category and the page size are stored: "More suggestions" finds both. *)
Lemma drawn_picker_has_query urlparse st k :
  reachable urlparse st →
  ¬ (links st k = [] ∧ accepted st k = ∅) →
  ∃ meta n, queries st k = Some meta ∧ n_results st = Some n.
Proof.
  intros Hr Hdrawn. destruct (reachable_query_stored urlparse st Hr) as [Hq Hn].
  destruct (Hq k) as [? | [meta Hmeta]]; [done|].
  destruct Hn as [Hnone | [n Hn]]; [by rewrite Hnone in Hmeta|]. eauto.
Qed.

(** ** The claims about the curation store *)

(** C2, as stated, fails: the "save" button adds the URL to [accepted] and
    leaves it in the candidate list.  In a fresh session "Fetch links" finds
    one tender URL, A; the check mark of its row is clicked; A is then both a
    candidate and accepted. *)
Lemma saved_candidate_stays_listed :
  let st := run_page urlparse_whole [(K_t, Save 0%nat)]
              (state_of (fetch_links urlparse_whole "ev" 3 true false false false
                           (api_answering ["A"]) session_defaults)) in
  links st K_t = ["A"] ∧ "A" ∈ accepted st K_t ∧ ¬ candidates_apart st K_t.
Proof.
  split_and!; [by vm_compute | by vm_compute |].
  intros H. destruct (H "A") as [Hacc _].
  - vm_compute. apply list_elem_of_here.
  - apply Hacc. by vm_compute.
Qed.

(** C2, amended: from any state that satisfies the invariant [curated] (the
    initial empty store does), after any sequence of save, drop, add and
    more-suggestions clicks in any pickers, no candidate of any category is in
    that category's rejected set.  It holds for the handlers alone and for
    the page, which draws the buttons only for a non-empty category. *)
Theorem candidates_never_rejected urlparse cs st k :
  (∀ k', curated st k') →
  (∀ u, u ∈ links (run_handlers urlparse cs st) k
        → u ∉ rejected (run_handlers urlparse cs st) k)
  ∧ (∀ u, u ∈ links (run_page urlparse cs st) k
          → u ∉ rejected (run_page urlparse cs st) k).
Proof.
  intros Hc. split.
  - by destruct (run_handlers_curated urlparse cs st Hc k) as (_ & H & _).
  - by destruct (run_page_curated urlparse cs st Hc k) as (_ & H & _).
Qed.

(** C3: from any state that satisfies the invariant [curated] (the initial
    empty store does), after any sequence of save, drop, add and
    more-suggestions clicks in any pickers, the accepted and the rejected set
    of every category are disjoint. *)
Theorem accepted_rejected_disjoint urlparse cs st k :
  (∀ k', curated st k') →
  accepted (run_handlers urlparse cs st) k ## rejected (run_handlers urlparse cs st) k
  ∧ accepted (run_page urlparse cs st) k ## rejected (run_page urlparse cs st) k.
Proof.
  intros Hc. split.
  - by destruct (run_handlers_curated urlparse cs st Hc k) as (_ & _ & H).
  - by destruct (run_page_curated urlparse cs st Hc k) as (_ & _ & H).
Qed.

Lemma candidates_never_rejected_witness :
  (∀ k', curated example_session k')
  ∧ (∀ u, u ∈ links (run_page urlparse_whole example_clicks example_session) K_t
          → u ∉ rejected (run_page urlparse_whole example_clicks example_session) K_t).
Proof.
  assert (∀ k', curated example_session k') as Hc.
  { intros k'. apply curatedb_correct. by destruct k'; vm_compute. }
  split; [done|].
  apply (candidates_never_rejected urlparse_whole example_clicks example_session K_t Hc).
Defined.

Lemma accepted_rejected_disjoint_witness :
  (∀ k', curated example_session k')
  ∧ accepted (run_page urlparse_whole example_clicks example_session) K_t
    ## rejected (run_page urlparse_whole example_clicks example_session) K_t.
Proof.
  assert (∀ k', curated example_session k') as Hc.
  { intros k'. apply curatedb_correct. by destruct k'; vm_compute. }
  split; [done|].
  apply (accepted_rejected_disjoint urlparse_whole example_clicks example_session K_t Hc).
Defined.

(** C4 does not hold of the code: when the search request fails,
    [serp_links] raises (the defect of C1) and the "More suggestions" handler
    stops before the line that advances the cursor.  Here the session has a
    stored tender query, a page size of 2 and the tender cursor at 2; with the
    API unreachable the click leaves the cursor at 2 instead of moving it
    to 4. *)
Theorem fetch_more_stalls_when_search_fails :
  queries example_session K_t
    = Some {| q := "ev charger procurement tender"; lit := false; engine := "google" |}
  ∧ n_results example_session = Some 2
  ∧ start_index example_session K_t = 2
  ∧ on_more urlparse_whole api_unreachable K_t example_session = Raise ConnectionError
  ∧ start_index (click_page urlparse_whole K_t (More api_unreachable) example_session) K_t
    = 2.
Proof. split_and!; reflexivity. Qed.

(** C5, as stated, fails twice.  An empty URL is not appended (the handler
    runs only for a non-empty field).  And a URL that is accepted but no
    longer listed is appended: "Fetch links" finds A for tenders, A is saved,
    "Fetch links" runs again for suppliers only, which empties the tender
    candidates and keeps A accepted; adding A by hand then lists it again. *)
Lemma manual_add_differs :
  links (click_page urlparse_whole K_t (AddLink "") example_session) K_t = ["A"; "B"]
  ∧ links (manual_add_spec K_t "" example_session) K_t = ["A"; "B"; ""]
  ∧ let st :=
      state_of (fetch_links urlparse_whole "ev" 3 false true false false
                  (api_answering ["B"])
        (run_page urlparse_whole [(K_t, Save 0%nat)]
          (state_of (fetch_links urlparse_whole "ev" 3 true false false false
                       (api_answering ["A"]) session_defaults)))) in
    links st K_t = [] ∧ "A" ∈ accepted st K_t
    ∧ links (click_page urlparse_whole K_t (AddLink "A") st) K_t = ["A"]
    ∧ links (manual_add_spec K_t "A" st) K_t = [].
Proof. split_and!; by vm_compute. Qed.

(** C5, amended: adding a URL by hand changes nothing when the URL is empty
    or is already a candidate or rejected; a non-empty URL that is neither a
    candidate nor accepted nor rejected is appended to the candidates, and
    nothing else changes. *)
Theorem manual_add_spec_nonempty k new_url st :
  (Str.truthy new_url = false ∨ new_url ∈ links st k ∨ new_url ∈ rejected st k
     → on_add k new_url st = st)
  ∧ (Str.truthy new_url = true →
     (new_url ∉ links st k) → (new_url ∉ accepted st k) → (new_url ∉ rejected st k) →
     on_add k new_url st = manual_add_spec k new_url st
     ∧ links (on_add k new_url st) k = links st k ++ [new_url]
     ∧ accepted (on_add k new_url st) = accepted st
     ∧ rejected (on_add k new_url st) = rejected st).
Proof.
  unfold on_add, manual_add_spec. split.
  - intros [-> | Hin]; [done|]. destruct (Str.truthy new_url); [|done].
    case_decide as Hd; [|done]. tauto.
  - intros -> Hl Ha Hr. rewrite decide_True by done.
    rewrite decide_False by tauto. fn_simpl. done.
Qed.

Lemma manual_add_spec_nonempty_witness :
  on_add K_s "B" example_session = example_session
  ∧ links (on_add K_s "C" example_session) K_s = links example_session K_s ++ ["C"].
Proof.
  split.
  - apply (proj1 (manual_add_spec_nonempty K_s "B" example_session)).
    right; left. compute_done.
  - apply (proj2 (manual_add_spec_nonempty K_s "C" example_session));
      [reflexivity | compute_done | compute_done | compute_done].
Defined.

(** ** Failures of the outside world *)

(** C1 does not hold of the code: [serp_links] has no handler around its
    request, so a failed request raises to the caller.  Here the API cannot
    be reached; the exception leaves [serp_links], and it leaves the "Fetch
    links" handler too. *)
Theorem serp_links_raises_when_unreachable :
  serp_links urlparse_whole api_unreachable session_defaults
             "ev procurement tender" 3 0 "google" false (Some K_t)
    = Raise ConnectionError
  ∧ ∃ st', fetch_links urlparse_whole "ev" 3 true true false false
             api_unreachable session_defaults = Crashed st' ConnectionError.
Proof. split; [reflexivity | eexists; reflexivity]. Qed.

(** An answer without the [organic_results] key is no failure: the result
    is empty. *)
Lemma serp_links_no_results urlparse api st q n start engine lit kind :
  api {| req_engine := engine; req_q := q; req_num := n; req_start := start |}
    = Json None →
  serp_links urlparse api st q n start engine lit kind = Ok [].
Proof.
  intros Hapi.
  destruct (serp_links_answered urlparse api st q n start engine lit kind None Hapi)
    as (found & -> & Hsub & _).
  simpl in Hsub. by apply sublist_nil_r in Hsub as ->.
Qed.

(** ** PDF excerpts *)

Lemma map_gen_pure {A B} (f : A → outcome B) (g : A → B) (l : list A) :
  (∀ x, x ∈ l → f x = Ok (g x)) → map_gen f l = Ok (g <$> l).
Proof.
  induction l as [|x l IH]; intros Hf; simpl; [done|].
  rewrite (Hf x) by apply list_elem_of_here. simpl.
  rewrite IH; [done|]. intros y Hy. apply Hf. by apply list_elem_of_further.
Qed.

(** When the reader opens the file and the first three pages can be
    extracted, the result is the text of those pages, in order; a page for
    which the extraction yields nothing contributes nothing. *)
Lemma pdf_to_text_first_pages {File} (reader : File → outcome (list Page))
    (file : File) (pages : list Page) (texts : Page → option string) :
  reader file = Ok pages →
  (∀ p, p ∈ take 3 pages → extract_text p = Ok (texts p)) →
  pdf_to_text File reader file
    = Ok (fold_right String.append "" ((λ p, default "" (texts p)) <$> take 3 pages)).
Proof.
  intros Hr Hp. unfold pdf_to_text. rewrite Hr. simpl.
  change (slice_to 3 pages) with (take 3 pages).
  rewrite (map_gen_pure _ (λ p, default "" (texts p))); [done|].
  intros p Hin. rewrite (Hp p Hin). simpl. f_equal.
  unfold py_or, opt_truthy. destruct (texts p) as [[|c t]|]; done.
Qed.

(** C10 does not hold of the code: [pdf_to_text] has no handler, so a file
    the reader refuses, or a page whose extraction fails, raises to the
    caller instead of yielding empty text. *)
Theorem pdf_to_text_raises_on_bad_file :
  pdf_to_text string (λ _, Raise PdfReadError) "not a pdf" = Raise PdfReadError
  ∧ pdf_to_text string
      (λ _, Ok [ {| extract_text := Ok (Some "page one") |};
                 {| extract_text := Raise (OtherException "damaged stream") |} ])
      "damaged"
    = Raise (OtherException "damaged stream").
Proof. split; reflexivity. Qed.

(** ** Question parsing *)

Lemma lstrip_decompose ln :
  ∃ ws, ln = ws +:+ Str.lstrip ln ∧ Str.all Str.isspace ws = true.
Proof.
  induction ln as [|c ln (ws & Hws & Hall)]; simpl.
  - by exists "".
  - destruct (Str.isspace c) eqn:Hc.
    + exists (String c ws). simpl. rewrite Hc, Hall. split; [|done].
      change (String c ln = String c (ws +:+ Str.lstrip ln)). by f_equal.
    + by exists "".
Qed.

Lemma lstrip_spaces ws s :
  Str.all Str.isspace ws = true → Str.lstrip (ws +:+ s) = Str.lstrip s.
Proof.
  induction ws as [|c ws IH]; simpl; [done|].
  rewrite andb_true_iff. intros [-> Hws]. by apply IH.
Qed.

Lemma digit_not_space d :
  d ∈ ["1"; "2"; "3"; "4"; "5"]%char → Str.isspace d = false.
Proof.
  rewrite !elem_of_cons, elem_of_nil.
  intros H. repeat (destruct H as [-> | H]; [reflexivity|]). done.
Qed.

Lemma lstrip_numbered ws d rest :
  Str.all Str.isspace ws = true → d ∈ ["1"; "2"; "3"; "4"; "5"]%char →
  Str.lstrip (ws +:+ String d rest) = String d rest.
Proof.
  intros Hws Hd. rewrite (lstrip_spaces ws _ Hws). simpl.
  by rewrite (digit_not_space d Hd).
Qed.

(** The test of the comprehension decides [numbered]. *)
Lemma numbered_check ln :
  startswith_any (tuple "12345") (Str.lstrip ln) = true ↔ numbered ln.
Proof.
  unfold startswith_any, numbered. rewrite existsb_exists. split.
  - intros (p & Hp & Hstart). apply startswith_spec in Hstart as [r Hr].
    destruct (lstrip_decompose ln) as (ws & Hln & Hws).
    simpl in Hp.
    assert (∃ d, p = String d "" ∧ d ∈ ["1"; "2"; "3"; "4"; "5"]%char)
      as (d & -> & Hd).
    { repeat (destruct Hp as [<- | Hp];
              [eexists; split; [reflexivity | compute_done] |]). done. }
    exists ws, d, r. rewrite Hr in Hln. done.
  - intros (ws & d & rest & -> & Hws & Hd).
    rewrite (lstrip_numbered ws d rest Hws Hd).
    exists (String d ""). split.
    + simpl. rewrite !elem_of_cons, elem_of_nil in Hd.
      repeat (destruct Hd as [-> | Hd]; [tauto|]). done.
    + simpl. by rewrite decide_True.
Qed.

#[global] Instance numbered_dec ln : Decision (numbered ln).
Proof.
  refine (cast_if (decide (startswith_any (tuple "12345") (Str.lstrip ln) = true)));
    by rewrite <- numbered_check.
Defined.

Lemma rstrip_head c s :
  Str.isspace c = false → ∃ r, Str.rstrip (String c s) = String c r.
Proof.
  intros Hc. simpl. destruct (Str.rstrip s) as [|c' r].
  - rewrite Hc. by exists "".
  - by exists (String c' r).
Qed.

(** C9: [extract_questions] returns, in order, the stripped lines of the
    text that are [numbered] (after leading whitespace they begin with a digit
    from 1 to 5), and nothing else; so it returns as many questions as there
    are such lines (three such lines give three questions), and every question
    begins with its digit.  It is a total function: no text makes it fail. *)
Theorem extract_questions_spec text :
  extract_questions text = Str.strip <$> filter numbered (Str.splitlines text)
  ∧ length (extract_questions text) = length (filter numbered (Str.splitlines text))
  ∧ ∀ question, question ∈ extract_questions text →
      ∃ d rest, question = String d rest ∧ d ∈ ["1"; "2"; "3"; "4"; "5"]%char.
Proof.
  assert (extract_questions text = Str.strip <$> filter numbered (Str.splitlines text))
    as Heq.
  { unfold extract_questions. f_equal. apply list_filter_iff.
    intros ln. apply numbered_check. }
  split_and!; [done | by rewrite Heq, length_fmap |].
  intros question. rewrite Heq, list_elem_of_fmap.
  intros (ln & -> & Hln). apply list_elem_of_filter in Hln as [Hnum _].
  destruct Hnum as (ws & d & rest & -> & Hws & Hd).
  unfold Str.strip. rewrite (lstrip_numbered ws d rest Hws Hd).
  destruct (rstrip_head d rest (digit_not_space d Hd)) as [r ->]. eauto.
Qed.

(** A response with a heading, three numbered lines and a stray line gives
    three questions. *)
Example extract_three_questions :
  extract_questions
    ("QUESTIONS:" +:+ String "010"
       ("1. Which sites?  " +:+ String "010"
          ("  2. What budget?" +:+ String "013" (String "010"
             ("Thanks." +:+ String "010" "3) Which standard?")))))
  = ["1. Which sites?"; "2. What budget?"; "3) Which standard?"].
Proof. reflexivity. Qed.

Lemma extract_questions_spec_witness :
  "4. When?" ∈ extract_questions ("Sure:" +:+ String "010" " 4. When? ")
  ∧ ∃ d rest, "4. When?" = String d rest ∧ d ∈ ["1"; "2"; "3"; "4"; "5"]%char.
Proof.
  assert ("4. When?" ∈ extract_questions ("Sure:" +:+ String "010" " 4. When? "))
    as Hin by (vm_compute; apply list_elem_of_here).
  split; [done|].
  apply (extract_questions_spec ("Sure:" +:+ String "010" " 4. When? ")), Hin.
Defined.

(** ** The content fetcher *)


Lemma take_length n s : (String.length (Str.take n s) ≤ n)%nat.
Proof.
  revert s. induction n as [|n IH]; intros s; simpl; [done|].
  destruct s as [|c s]; simpl; [lia|]. specialize (IH s). lia.
Qed.


Lemma str_slice_to_length n s :
  0 ≤ n → Z.of_nat (String.length (Str.slice_to n s)) ≤ n.
Proof.
  intros Hn. unfold Str.slice_to. destruct (Z.leb_spec 0 n); [|lia].
  pose proof (take_length (Z.to_nat n) s). lia.
Qed.


(** A page with no [lang] attribute on its root tag and no
    content-language meta tag declares no language. *)
Lemma declared_lang_absent soup :
  (∀ h, html soup = Some h → h !! "lang" = None) →
  find_meta_content_language soup = None →
  declared_lang soup = "".
Proof.
  intros Hh Hm. unfold declared_lang, tag_get. rewrite Hm.
  destruct (html soup) as [h|]; [|done]. by rewrite (Hh h eq_refl).
Qed.




(** * Further properties of the code *)

(** ** The search client, page by page *)

(** X3: the URL of a result is its [link] when that is a non-empty string
    and its [url] otherwise; a result with neither is dropped, so the list of
    URLs is never longer than the list of results and holds no empty string. *)
Theorem raw_links_prefers_link results :
  (∀ u, u ∈ raw_links results ↔
        ∃ x, x ∈ results ∧ Str.truthy u = true
             ∧ (link x = Some u ∨ (opt_truthy (link x) = false ∧ url x = Some u)))
  ∧ (length (raw_links results) ≤ length results)%nat.
Proof.
  split.
  - intros u. unfold raw_links. rewrite list_elem_of_omap.
    split; intros (x & Hx & H); exists x; (split; [done|]).
    + unfold py_or in H. destruct (opt_truthy (link x)) eqn:Hl.
      * rewrite Hl in H. split; [|by left].
        rewrite H in Hl. done.
      * destruct (opt_truthy (url x)) eqn:Hu; [|done].
        split; [|by right]. rewrite H in Hu. done.
    + destruct H as (Ht & [Hl | [Hl Hu]]); unfold py_or.
      * rewrite Hl. simpl. rewrite Ht. simpl. by rewrite Ht.
      * rewrite Hl, Hu. simpl. by rewrite Ht.
  - unfold raw_links. induction results as [|x results IH]; simpl; [done|].
    destruct (if opt_truthy _ then _ else _); simpl;
      [apply le_n_S; exact IH | apply Nat.le_le_succ_r; exact IH].
Qed.

Lemma raw_links_prefers_link_witness :
  raw_links [ {| link := Some "L"; url := Some "U" |};
              {| link := Some ""; url := Some "V" |};
              {| link := None; url := None |} ] = ["L"; "V"]
  ∧ "V" ∈ raw_links [ {| link := Some "L"; url := Some "U" |};
                      {| link := Some ""; url := Some "V" |};
                      {| link := None; url := None |} ].
Proof.
  split; [reflexivity|].
  apply (proj1 (raw_links_prefers_link _)).
  exists {| link := Some ""; url := Some "V" |}.
  split_and!; [apply list_elem_of_further, list_elem_of_here | reflexivity
              | right; by split].
Defined.

(** X1: for a search that is not a literature search, when the API answers
    and the requested count is not negative, [serp_links] returns at most
    that many URLs, in the order of the answer, none of them empty and none
    of them rejected in the category given. *)
Theorem serp_links_plain_page urlparse api st q n start engine kind results :
  api {| req_engine := engine; req_q := q; req_num := n; req_start := start |}
    = Json results →
  0 ≤ n →
  ∃ found, serp_links urlparse api st q n start engine false kind = Ok found
    ∧ Z.of_nat (length found) ≤ n
    ∧ sublist found (raw_links (default [] results))
    ∧ ∀ u, u ∈ found →
        Str.truthy u = true ∧ ∀ k, kind = Some k → u ∉ rejected st k.
Proof.
  intros Hapi Hn. unfold serp_links. rewrite Hapi. simpl.
  set (raw := raw_links (default [] results)).
  pose proof (slice_to_length n raw Hn) as Hlen.
  pose proof (slice_to_sublist n raw) as Hsub.
  eexists. split; [done|]. destruct kind as [k|].
  - split_and!.
    + pose proof (length_filter (λ u, u ∉ rejected st k) (slice_to n raw)). lia.
    + etrans; [apply sublist_filter | done].
    + intros u Hu. apply list_elem_of_filter in Hu as [Hrej Hu]. split.
      * apply (raw_links_truthy (default [] results)).
        by apply (elem_of_sublist (slice_to n raw)).
      * by intros k' [= <-].
  - split_and!; [done | done |]. intros u Hu. split; [|done].
    apply (raw_links_truthy (default [] results)).
    by apply (elem_of_sublist (slice_to n raw)).
Qed.

Lemma serp_links_plain_page_witness :
  ∃ found, serp_links urlparse_whole (api_answering ["A"; "B"; "C"]) example_session
             "ev" 2 0 "google" false (Some K_t) = Ok found
           ∧ Z.of_nat (length found) ≤ 2.
Proof.
  destruct (serp_links_plain_page urlparse_whole (api_answering ["A"; "B"; "C"])
              example_session "ev" 2 0 "google" (Some K_t)
              (Some (result_of <$> ["A"; "B"; "C"])) eq_refl)
    as (found & Hf & Hlen & _); [lia|].
  by exists found.
Defined.

(** X2: for a literature search, when the API answers, [serp_links]
    returns exactly the URLs of the answer that [is_scholar_url] accepts and
    that are not rejected in the category given, in the order of the answer;
    the requested count does not cut the list. *)
Theorem serp_links_literature_page urlparse api st q n start engine kind results :
  api {| req_engine := engine; req_q := q; req_num := n; req_start := start |}
    = Json results →
  ∃ found, serp_links urlparse api st q n start engine true kind = Ok found
    ∧ sublist found (raw_links (default [] results))
    ∧ ∀ u, u ∈ found ↔
        u ∈ raw_links (default [] results)
        ∧ is_scholar_url urlparse u = Ok true
        ∧ ∀ k, kind = Some k → u ∉ rejected st k.
Proof.
  intros Hapi. unfold serp_links. rewrite Hapi.
  set (raw := raw_links (default [] results)).
  destruct (filter_gen_total (is_scholar_url urlparse) raw)
    as (r & -> & Hsub & Hin); [apply is_scholar_url_returns|].
  simpl. eexists. split; [done|]. destruct kind as [k|].
  - split; [etrans; [apply sublist_filter | done]|].
    intros u. rewrite list_elem_of_filter, Hin. split.
    + intros (Hrej & Hraw & Hs). split_and!; [done | done |]. by intros k' [= <-].
    + intros (Hraw & Hs & Hrej). split_and!; [by apply Hrej | done | done].
  - split; [done|]. intros u. rewrite Hin. split.
    + intros [Hraw Hs]. by split_and!.
    + intros (Hraw & Hs & _). by split.
Qed.

Lemma serp_links_literature_page_witness :
  serp_links urlparse_whole
             (api_answering ["arxiv.org/1"; "shop.example"; "mit.edu/x"; "ieee.org/y"])
             session_defaults "ev" 1 0 "google" true (Some K_lit)
    = Ok ["arxiv.org/1"; "mit.edu/x"; "ieee.org/y"]
  ∧ "mit.edu/x" ∈ raw_links (result_of <$> ["arxiv.org/1"; "shop.example"; "mit.edu/x"; "ieee.org/y"]).
Proof.
  split; [reflexivity|].
  destruct (serp_links_literature_page urlparse_whole
              (api_answering ["arxiv.org/1"; "shop.example"; "mit.edu/x"; "ieee.org/y"])
              session_defaults "ev" 1 0 "google" (Some K_lit)
              (Some (result_of <$> ["arxiv.org/1"; "shop.example"; "mit.edu/x"; "ieee.org/y"]))
              eq_refl) as (found & Hf & _ & Hin).
  injection Hf as <-. apply Hin. compute_done.
Defined.

(** ** The content fetcher, the PDF reader and the prompts *)

(** X4: a non-empty [lang] attribute on the root tag decides alone whether
    the page is English; the content-language meta tag is then not
    consulted. *)
Theorem root_lang_beats_meta soup soup' h l :
  html soup = Some h → html soup' = Some h →
  h !! "lang" = Some l → l ≠ "" →
  declared_lang soup = l
  ∧ is_english soup = Str.startswith "en" (Str.lower l)
  ∧ is_english soup = is_english soup'.
Proof.
  intros Hs Hs' Hl Hne.
  assert (∀ sp, html sp = Some h → declared_lang sp = l) as Hdecl.
  { intros sp Hsp. unfold declared_lang, tag_get. rewrite Hsp, Hl. simpl.
    destruct l; done. }
  assert (∀ sp, html sp = Some h → is_english sp = Str.startswith "en" (Str.lower l))
    as Heng.
  { intros sp Hsp. unfold is_english. rewrite (Hdecl sp Hsp). destruct l; done. }
  split_and!; [by apply Hdecl | by apply Heng |].
  by rewrite (Heng soup Hs), (Heng soup' Hs').
Qed.

Lemma root_lang_beats_meta_witness :
  is_english french_page = false
  ∧ is_english french_page
    = is_english {| html := Some {[ "lang" := "fr" ]};
                    find_meta_content_language := Some {[ "content" := "en" ]};
                    get_text := Ok "" |}.
Proof.
  destruct (root_lang_beats_meta french_page
              {| html := Some {[ "lang" := "fr" ]};
                 find_meta_content_language := Some {[ "content" := "en" ]};
                 get_text := Ok "" |}
              {[ "lang" := "fr" ]} "fr" eq_refl eq_refl eq_refl)
    as (_ & H1 & H2); [done|].
  split; [by rewrite H1 | exact H2].
Defined.

(** X5: whatever the network, the parser and the page do, [fetch_text]
    returns a string, and for a non-negative [max_chars] that string is never
    longer than [max_chars]. *)
Theorem fetch_text_bounded get parse st url max_chars :
  ∃ r, fetch_text get parse st url max_chars = Ok r
       ∧ (0 ≤ max_chars → Z.of_nat (String.length r) ≤ max_chars).
Proof.
  destruct (fetch_text_cases get parse st url max_chars) as [-> | [txt ->]].
  - exists "". split; [done|]. simpl. lia.
  - eexists. split; [done|]. apply str_slice_to_length.
Qed.

Lemma fetch_text_bounded_witness :
  ∃ r, fetch_text (λ _, Ok "<html>") (λ _, Ok french_page) session_defaults
                  "http://example.fr" 3 = Ok r
       ∧ Z.of_nat (String.length r) ≤ 3.
Proof.
  destruct (fetch_text_bounded (λ _, Ok "<html>") (λ _, Ok french_page)
              session_defaults "http://example.fr" 3) as (r & Hr & Hlen).
  exists r. split; [done|]. apply Hlen. lia.
Defined.

(** X6: [pdf_to_text] reads the first three pages and nothing else: two
    documents that agree on their first three pages give the same result,
    whatever their later pages hold (even pages whose extraction would
    raise). *)
Theorem pdf_to_text_reads_three_pages {File File'}
    (reader : File → outcome (list Page)) (reader' : File' → outcome (list Page))
    (file : File) (file' : File') (pages pages' : list Page) :
  reader file = Ok pages → reader' file' = Ok pages' →
  take 3 pages = take 3 pages' →
  pdf_to_text File reader file = pdf_to_text File' reader' file'.
Proof.
  intros Hr Hr' Htake. unfold pdf_to_text. rewrite Hr, Hr'. simpl.
  change (slice_to 3 pages) with (take 3 pages).
  change (slice_to 3 pages') with (take 3 pages'). by rewrite Htake.
Qed.

Lemma pdf_to_text_reads_three_pages_witness :
  pdf_to_text string
    (λ _, Ok [ {| extract_text := Ok (Some "a") |}; {| extract_text := Ok None |};
               {| extract_text := Ok (Some "c") |};
               {| extract_text := Raise (OtherException "damaged stream") |} ])
    "four pages"
  = Ok "ac".
Proof.
  rewrite (pdf_to_text_reads_three_pages
             (λ _ : string, Ok [ {| extract_text := Ok (Some "a") |};
                        {| extract_text := Ok None |};
                        {| extract_text := Ok (Some "c") |};
                        {| extract_text := Raise (OtherException "damaged stream") |} ])
             (λ _ : string, Ok [ {| extract_text := Ok (Some "a") |};
                        {| extract_text := Ok None |};
                        {| extract_text := Ok (Some "c") |} ])
             "four pages" "three pages" _ _ eq_refl eq_refl eq_refl).
  reflexivity.
Defined.

Lemma str_app_nil_r s : s +:+ "" = s.
Proof.
  induction s as [|c s IH]; [done|].
  change (String c (s +:+ "") = String c s). by f_equal.
Qed.

Lemma str_app_assoc a b c : (a +:+ b) +:+ c = a +:+ b +:+ c.
Proof.
  induction a as [|x a IH]; [done|].
  change (String x ((a +:+ b) +:+ c) = String x (a +:+ b +:+ c)). by f_equal.
Qed.

Lemma join_empty_sep parts : join "" parts = fold_right String.append "" parts.
Proof.
  induction parts as [|x [|y parts] IH]; [done | | ].
  - simpl. by rewrite str_app_nil_r.
  - change (x +:+ "" +:+ join "" (y :: parts)
            = x +:+ fold_right String.append "" (y :: parts)).
    by rewrite IH.
Qed.

Lemma map_gen_first_failure {A B} (f : A → outcome B) (g : A → B)
    (pre post : list A) (x : A) (e : exn) :
  (∀ y, y ∈ pre → f y = Ok (g y)) → f x = Raise e →
  map_gen f (pre ++ x :: post) = Raise e.
Proof.
  intros Hpre Hx. induction pre as [|y pre IH]; simpl.
  - by rewrite Hx.
  - rewrite (Hpre y) by apply list_elem_of_here. simpl.
    rewrite IH; [done|]. intros z Hz. apply Hpre. by apply list_elem_of_further.
Qed.

(** X7: the text of the uploaded PDFs is the text of each file, in the
    order of the upload, when every file can be read; the first file that
    cannot be read makes the whole collection raise that file's exception,
    and the text of the files before it is lost. *)
Theorem collect_pdf_text_all_or_nothing {File} (reader : File → outcome (list Page))
    (texts : File → string) :
  (∀ files,
     (∀ f, f ∈ files → pdf_to_text File reader f = Ok (texts f)) →
     collect_pdf_text File reader files
       = Ok (fold_right String.append "" (texts <$> files)))
  ∧ (∀ pre bad post e,
       (∀ f, f ∈ pre → pdf_to_text File reader f = Ok (texts f)) →
       pdf_to_text File reader bad = Raise e →
       collect_pdf_text File reader (pre ++ bad :: post) = Raise e).
Proof.
  split.
  - intros files Hall. destruct files as [|f files]; [done|].
    unfold collect_pdf_text. rewrite (map_gen_pure _ texts _ Hall).
    unfold mbind, outcome_bind. by rewrite join_empty_sep.
  - intros pre bad post e Hpre Hbad. unfold collect_pdf_text.
    rewrite (map_gen_first_failure _ texts pre post bad e Hpre Hbad).
    by destruct pre.
Qed.

Lemma collect_pdf_text_all_or_nothing_witness :
  collect_pdf_text string
    (λ f, if decide (f = "bad") then Raise PdfReadError
          else Ok [ {| extract_text := Ok (Some f) |} ])
    ["one"; "bad"; "two"]
  = Raise PdfReadError.
Proof.
  apply (proj2 (collect_pdf_text_all_or_nothing
                  (λ f : string, if decide (f = "bad") then Raise PdfReadError
                        else Ok [ {| extract_text := Ok (Some f) |} ])
                  (λ f, f))
           ["one"] "bad" ["two"] PdfReadError).
  - intros f Hf. apply list_elem_of_singleton in Hf as ->. reflexivity.
  - reflexivity.
Defined.

(** X8: [build_prompt] returns exactly for the roles "tender" and
    "supplier" and raises [KeyError] for any other role; the prompt it
    returns holds the documents verbatim, and the prompt for the tender role
    does not depend on the product name. *)
Theorem build_prompt_roles role docs product :
  (returns (build_prompt role docs product) ↔ role = "tender" ∨ role = "supplier")
  ∧ (role ≠ "tender" → role ≠ "supplier" →
     build_prompt role docs product = Raise KeyError)
  ∧ (∀ prompt, build_prompt role docs product = Ok prompt →
               ∃ pre post, prompt = pre +:+ docs +:+ post)
  ∧ (∀ product', build_prompt "tender" docs product = build_prompt "tender" docs product').
Proof.
  unfold build_prompt, returns. split_and!.
  - split.
    + intros [p Hp]. repeat case_decide; auto. discriminate.
    + intros [-> | ->]; simpl; eauto.
  - intros H1 H2. by rewrite !decide_False.
  - intros prompt.
    assert (∀ h : string, ∃ pre post,
              h +:+ NL +:+ NL +:+ "Below are documents scraped from the web:" +:+ NL
                +:+ docs +:+ NL +:+ NL
                +:+ "Write **exactly five** clarification questions the municipality must answer before drafting a tender."
                +:+ NL +:+ "Output format strictly:" +:+ NL +:+ "QUESTIONS:" +:+ NL
                +:+ "1. ..." +:+ NL +:+ "2. ..." +:+ NL +:+ "3. ..." +:+ NL
                +:+ "4. ..." +:+ NL +:+ "5. ..."
              = pre +:+ docs +:+ post) as Hshape.
    { intros h.
      exists (h +:+ NL +:+ NL +:+ "Below are documents scraped from the web:" +:+ NL).
      eexists. rewrite !str_app_assoc. reflexivity. }
    repeat case_decide; simpl; intros [= <-]; apply Hshape.
  - done.
Qed.

Lemma build_prompt_roles_witness :
  build_prompt "buyer" "docs" "ev charger" = Raise KeyError.
Proof.
  apply (proj1 (proj2 (build_prompt_roles "buyer" "docs" "ev charger"))); done.
Defined.

(** ** The questions that are kept *)

Lemma all_rev_app P s1 s2 :
  Str.all P (String.rev_app s1 s2) = Str.all P s1 && Str.all P s2.
Proof.
  revert s2. induction s1 as [|c s1 IH]; intros s2; simpl; [done|].
  rewrite IH. simpl. destruct (P c), (Str.all P s1); simpl; try done;
    by rewrite ?andb_false_r.
Qed.

Lemma all_rev P s : Str.all P (String.rev s) = Str.all P s.
Proof. unfold String.rev. rewrite all_rev_app. simpl. by rewrite andb_true_r. Qed.

Lemma splitlines_go_no_break n :
  ∀ s cur, (String.length s ≤ n)%nat → Str.all no_break cur = true →
    ∀ ln, ln ∈ Str.splitlines_go cur s → Str.all no_break ln = true.
Proof.
  induction n as [|n IH]; intros s cur Hlen Hcur ln.
  - destruct s; [|simpl in Hlen; lia]. simpl.
    destruct cur; [by rewrite elem_of_nil|].
    rewrite list_elem_of_singleton. intros ->. by rewrite all_rev.
  - destruct s as [|c s]; simpl.
    + destruct cur; [by rewrite elem_of_nil|].
      rewrite list_elem_of_singleton. intros ->. by rewrite all_rev.
    + simpl in Hlen. destruct (Str.is_linebreak c) eqn:Hc.
      * rewrite elem_of_cons. intros [-> | Hin]; [by rewrite all_rev|].
        destruct s as [|c' s']; [by apply elem_of_nil in Hin|].
        simpl in Hlen. case_decide.
        -- apply (IH s' ""); [lia | done | done].
        -- apply (IH (String c' s') ""); [simpl; lia | done | done].
      * apply (IH s (String c cur)); [lia|]. simpl.
        unfold no_break at 1. by rewrite Hc, Hcur.
Qed.

Lemma all_lstrip P s : Str.all P s = true → Str.all P (Str.lstrip s) = true.
Proof.
  induction s as [|c s IH]; simpl; [done|].
  rewrite andb_true_iff. intros [Hc Hs].
  destruct (Str.isspace c); [by apply IH|]. simpl. by rewrite Hc, Hs.
Qed.

Lemma all_rstrip P s : Str.all P s = true → Str.all P (Str.rstrip s) = true.
Proof.
  induction s as [|c s IH]; simpl; [done|].
  rewrite andb_true_iff. intros [Hc Hs]. specialize (IH Hs).
  destruct (Str.rstrip s) as [|c' r].
  - destruct (Str.isspace c); simpl; [done | by rewrite Hc].
  - simpl in *. by rewrite Hc, IH.
Qed.

Lemma rstrip_idem s : Str.rstrip (Str.rstrip s) = Str.rstrip s.
Proof.
  induction s as [|c s IH]; simpl; [done|].
  destruct (Str.rstrip s) as [|c' r] eqn:Hr.
  - destruct (Str.isspace c) eqn:Hc; simpl; [done | by rewrite Hc].
  - change (Str.rstrip (String c (String c' r))) with
      (match Str.rstrip (String c' r) with
       | EmptyString => if Str.isspace c then EmptyString else String c EmptyString
       | r0 => String c r0
       end).
    by rewrite IH.
Qed.

Lemma lstrip_head s :
  Str.lstrip s = "" ∨ ∃ c r, Str.lstrip s = String c r ∧ Str.isspace c = false.
Proof.
  induction s as [|c s IH]; simpl; [by left|].
  destruct (Str.isspace c) eqn:Hc; [done|]. right. eauto.
Qed.

Lemma strip_clean s :
  Str.lstrip (Str.strip s) = Str.strip s ∧ Str.rstrip (Str.strip s) = Str.strip s.
Proof.
  unfold Str.strip. split; [|apply rstrip_idem].
  destruct (lstrip_head s) as [-> | (c & r & -> & Hc)]; [done|].
  destruct (rstrip_head c r Hc) as [r' ->]. simpl. by rewrite Hc.
Qed.

(** X9: every question that [extract_questions] returns is a single line
    (it holds no line-break character), is not empty, and has no whitespace
    at either end: stripping it again changes nothing. *)
Theorem extract_questions_clean text question :
  question ∈ extract_questions text →
  question ≠ ""
  ∧ Str.strip question = question
  ∧ Str.lstrip question = question
  ∧ Str.rstrip question = question
  ∧ Str.all no_break question = true.
Proof.
  unfold extract_questions. rewrite list_elem_of_fmap.
  intros (ln & -> & Hln). apply list_elem_of_filter in Hln as [Hnum Hin].
  destruct (strip_clean ln) as [Hl Hr].
  split_and!; [| | done | done |].
  - apply numbered_check in Hnum as (ws & d & rest & -> & Hws & Hd).
    unfold Str.strip. rewrite (lstrip_numbered ws d rest Hws Hd).
    by destruct (rstrip_head d rest (digit_not_space d Hd)) as [r ->].
  - unfold Str.strip at 1. by rewrite Hl, Hr.
  - apply all_rstrip, all_lstrip.
    by apply (splitlines_go_no_break (String.length text) text "").
Qed.

Lemma extract_questions_clean_witness :
  "2) Why?" ∈ extract_questions ("  2) Why?  " +:+ String "013" (String "010" "x"))
  ∧ Str.strip "2) Why?" = "2) Why?".
Proof.
  assert ("2) Why?" ∈ extract_questions ("  2) Why?  " +:+ String "013" (String "010" "x")))
    as Hin by (vm_compute; apply list_elem_of_here).
  split; [done|].
  apply (extract_questions_clean _ _ Hin).
Defined.

(** ** Single clicks in a picker *)

Lemma remove_first_other x v l : v ≠ x → v ∈ remove_first x l ↔ v ∈ l.
Proof.
  intros Hne. induction l as [|y l IH]; simpl; [done|].
  case_decide as Hxy.
  - subst y. rewrite elem_of_cons. split; [by right | by intros [? | ?]].
  - rewrite !elem_of_cons, IH. done.
Qed.

Lemma remove_first_snoc x l : x ∉ l → remove_first x (l ++ [x]) = l.
Proof.
  induction l as [|y l IH]; simpl; intros Hx.
  - by rewrite decide_True.
  - rewrite not_elem_of_cons in Hx. destruct Hx as [Hne Hx].
    rewrite decide_False by done. by rewrite IH.
Qed.

(** X10: dropping a row overrides an earlier save.  When the candidate
    list has no duplicate, after the cross of a row is clicked its URL is
    rejected, is no longer accepted and is no longer a candidate, and nothing
    changes for any other URL. *)
Theorem drop_overrides_accept urlparse k i url st :
  combined st k !! i = Some url →
  NoDup (links st k) →
  let st' := handle urlparse k (Drop i) st in
  url ∈ rejected st' k ∧ (url ∉ accepted st' k) ∧ (url ∉ links st' k)
  ∧ ∀ v, v ≠ url →
      (v ∈ links st' k ↔ v ∈ links st k)
      ∧ (v ∈ accepted st' k ↔ v ∈ accepted st k)
      ∧ (v ∈ rejected st' k ↔ v ∈ rejected st k).
Proof.
  intros Hi Hnd. simpl. unfold on_drop. rewrite Hi. fn_simpl.
  case_decide as Hin; fn_simpl.
  - split_and!; [set_solver | set_solver | by apply remove_first_gone |].
    intros v Hv. split_and!; [by apply remove_first_other | set_solver | set_solver].
  - split_and!; [set_solver | set_solver | done |].
    intros v Hv. split_and!; [done | set_solver | set_solver].
Qed.

Lemma drop_overrides_accept_witness :
  let st := handle urlparse_whole K_t (Drop 0%nat)
              (handle urlparse_whole K_t (Save 0%nat) example_session) in
  "A" ∈ rejected st K_t ∧ ("A" ∉ accepted st K_t) ∧ ("A" ∉ links st K_t).
Proof.
  destruct (drop_overrides_accept urlparse_whole K_t 0%nat "A"
              (handle urlparse_whole K_t (Save 0%nat) example_session))
    as (H1 & H2 & H3 & _); [reflexivity | compute_done |].
  by split_and!.
Defined.

Lemma combined_lookup_links st k i url :
  combined st k !! i = Some url → url ∉ accepted st k → links st k !! i = Some url.
Proof.
  unfold combined. intros Hi Hacc.
  apply lookup_app_Some in Hi as [Hi | [_ Hi]]; [done|].
  apply list_elem_of_lookup_2, list_elem_of_filter in Hi as [_ Hi].
  by apply elem_of_elements in Hi.
Qed.



(** X12: a click in the picker of one category changes nothing in any
    other category: neither its candidates, nor its accepted and rejected
    sets, nor its cursor, nor its stored query. *)
Theorem click_leaves_other_categories urlparse k k' c st :
  k ≠ k' →
  links (click_page urlparse k c st) k' = links st k'
  ∧ accepted (click_page urlparse k c st) k' = accepted st k'
  ∧ rejected (click_page urlparse k c st) k' = rejected st k'
  ∧ start_index (click_page urlparse k c st) k' = start_index st k'
  ∧ queries (click_page urlparse k c st) k' = queries st k'.
Proof.
  intros Hne. destruct (click_page_cases urlparse k c st) as [-> | ->]; [done|].
  destruct (handle_frame urlparse k k' c st Hne) as (-> & -> & -> & ->).
  destruct (handle_keeps_query urlparse k c st) as [-> _]. done.
Qed.

Lemma click_leaves_other_categories_witness :
  links (click_page urlparse_whole K_t (Drop 0%nat) example_session) K_s
    = links example_session K_s.
Proof.
  apply (click_leaves_other_categories urlparse_whole K_t K_s (Drop 0%nat)
           example_session). done.
Defined.

(** X20: adding a new link by hand and then dropping its row puts the
    candidate list back as it was and leaves the URL rejected, so that it
    cannot be added again. *)
Theorem add_then_drop k new_url st :
  Str.truthy new_url = true →
  (new_url ∉ links st k) → (new_url ∉ rejected st k) →
  let st' := on_drop k (length (links st k)) (on_add k new_url st) in
  links st' k = links st k
  ∧ rejected st' k = {[new_url]} ∪ rejected st k
  ∧ accepted st' k = accepted st k ∖ {[new_url]}
  ∧ on_add k new_url st' = st'.
Proof.
  intros Ht Hl Hr st'. subst st'.
  assert (on_add k new_url st = set_links k (links st k ++ [new_url]) st) as ->
    by (unfold on_add; rewrite Ht; by rewrite decide_True).
  assert (combined (set_links k (links st k ++ [new_url]) st) k
            !! length (links st k) = Some new_url) as Hrow.
  { unfold combined. fn_simpl. apply lookup_app_l_Some.
    rewrite lookup_app_r by done. by rewrite Nat.sub_diag. }
  unfold on_drop. rewrite Hrow. fn_simpl.
  rewrite decide_True by (rewrite elem_of_app, list_elem_of_singleton; by right).
  fn_simpl. rewrite (remove_first_snoc new_url (links st k) Hl).
  split_and!; [done | done | done |].
  unfold on_add. rewrite Ht. fn_simpl. rewrite decide_False; [done|]. set_solver.
Qed.

Lemma add_then_drop_witness :
  links (on_drop K_s 2%nat (on_add K_s "C" example_session)) K_s
    = links example_session K_s.
Proof.
  apply (add_then_drop K_s "C" example_session); [reflexivity | compute_done | compute_done].
Defined.

(** ** Whole sessions *)

Lemma fetch_kind_reviews urlparse api k query is_lit n st :
  let st' := state_of (fetch_kind urlparse api k query is_lit n st) in
  accepted st' = accepted st ∧ rejected st' = rejected st
  ∧ ∀ k', k ≠ k' → links st' k' = links st k'.
Proof.
  unfold fetch_kind. destruct (serp_links _ _ _ _ _ _ _ _ _) as [found | e]; simpl.
  - split_and!; [done | done |]. intros k' Hne. by rewrite fn_lookup_insert_ne.
  - done.
Qed.

Lemma fetch_links_reviews urlparse product results_per_query
    chk_tender chk_supplier chk_prev chk_lit api st :
  let st' := state_of (fetch_links urlparse product results_per_query
                         chk_tender chk_supplier chk_prev chk_lit api st) in
  accepted st' = accepted st ∧ rejected st' = rejected st
  ∧ (Str.truthy product = true →
     ∀ k, ticked chk_tender chk_supplier chk_prev chk_lit k = false → links st' k = []).
Proof.
  unfold fetch_links. destruct (Str.truthy product); [|done].
  set (P := λ st' : session,
         accepted st' = accepted st ∧ rejected st' = rejected st
         ∧ (true = true →
            ∀ k, ticked chk_tender chk_supplier chk_prev chk_lit k = false
                 → links st' k = [])).
  assert (∀ b k query is_lit n st0,
            ticked chk_tender chk_supplier chk_prev chk_lit k = b →
            P st0 → P (state_of (when b (fetch_kind urlparse api k query is_lit n) st0)))
    as Hwhen.
  { intros b k query is_lit n st0 Hb (Ha & Hr & Hl). destruct b; simpl; [|done].
    destruct (fetch_kind_reviews urlparse api k query is_lit n st0)
      as (Ha' & Hr' & Hl').
    unfold P. rewrite Ha', Hr'. split_and!; [done | done |].
    intros _ k' Hk'. rewrite Hl' by congruence. by apply Hl. }
  change (P (state_of (and_then (and_then (and_then (and_then
    (Done (reset_links results_per_query st))
    (when chk_tender (fetch_kind urlparse api K_t (product +:+ " procurement tender")
                        false results_per_query)))
    (when chk_supplier (fetch_kind urlparse api K_s (product +:+ " supplier Europe price")
                          false results_per_query)))
    (when chk_prev (fetch_kind urlparse api K_prev ("site:ted.europa.eu " +:+ product)
                      false results_per_query)))
    (when chk_lit (fetch_kind urlparse api K_lit (product +:+ " tender specification")
                     true (results_per_query * 2)))))).
  repeat (apply (and_then_state P); [|intros st0 Hst0; by apply Hwhen]).
  by split_and!.
Qed.

Lemma handle_rejected_grows urlparse k c st k' :
  rejected st k' ⊆ rejected (handle urlparse k c st) k'.
Proof.
  destruct (decide (k = k')) as [<- | Hne].
  2: { by destruct (handle_frame urlparse k k' c st Hne) as (_ & _ & -> & _). }
  destruct c as [i | i | new_url | api]; simpl.
  - unfold on_save. destruct (combined st k !! i); [|done]. by case_decide.
  - unfold on_drop. destruct (combined st k !! i); [|done].
    case_decide; fn_simpl; set_solver.
  - unfold on_add. destruct (Str.truthy new_url); [|done]. by case_decide.
  - destruct (on_more_cases urlparse api k st)
      as [[-> _] | [[e ->] | (meta & n & results & st' & added & _ & _ & _
            & -> & _ & _ & _ & _ & _ & Hr & _)]]; [done | done |].
    by rewrite Hr.
Qed.

Lemma step_rejected_grows urlparse ev st k :
  rejected st k ⊆ rejected (step urlparse ev st) k.
Proof.
  destruct ev as [b | p n c1 c2 c3 c4 api | k' c | get parse gemini p n]; simpl.
  - done.
  - by destruct (fetch_links_reviews urlparse p n c1 c2 c3 c4 api st) as (_ & -> & _).
  - destruct (click_page_cases urlparse k' c st) as [-> | ->]; [done|].
    apply handle_rejected_grows.
  - by destruct (generate_questions_curation get parse gemini p n st)
      as (_ & _ & -> & _).
Qed.

Lemma run_events_rejected_grows urlparse evs st k :
  rejected st k ⊆ rejected (run_events urlparse evs st) k.
Proof.
  unfold run_events. revert st.
  induction evs as [|ev evs IH]; intros st; [done|].
  change (rejected st k ⊆
          rejected (foldl (λ st ev, step urlparse ev st) (step urlparse ev st) evs) k).
  etrans; [apply (step_rejected_grows urlparse ev) | apply IH].
Qed.

Lemma step_curated urlparse ev st :
  tidy ev → (∀ k, curated st k) → ∀ k, curated (step urlparse ev st) k.
Proof.
  intros Htidy Hc.
  destruct ev as [b | p n c1 c2 c3 c4 api | k' c | get parse gemini p n]; simpl.
  - done.
  - by apply fetch_links_curated.
  - destruct (click_page_cases urlparse k' c st) as [-> | ->]; [done|].
    by apply handle_curated_all.
  - intros k. unfold curated.
    destruct (generate_questions_curation get parse gemini p n st)
      as (-> & -> & -> & _). apply Hc.
Qed.

Lemma run_events_curated urlparse evs st :
  Forall tidy evs → (∀ k, curated st k) → ∀ k, curated (run_events urlparse evs st) k.
Proof.
  unfold run_events. intros Htidy. revert st.
  induction Htidy as [|ev evs Hev Hevs IH]; intros st Hc; [done|].
  change (∀ k, curated
            (foldl (λ st ev, step urlparse ev st) (step urlparse ev st) evs) k).
  apply IH. by apply step_curated.
Qed.

(** X13: a rejection lasts for the whole session: whatever the user does
    next (clicks in any picker, "Fetch links" again, "Generate Questions",
    the English-only box) and however the outside world answers, a URL that
    is in the rejected set of a category stays in it. *)
Theorem rejected_only_grows urlparse evs st k u :
  u ∈ rejected st k → u ∈ rejected (run_events urlparse evs st) k.
Proof. intros Hu. by apply (run_events_rejected_grows urlparse evs st k). Qed.

Lemma rejected_only_grows_witness :
  "B" ∈ rejected
    (run_events urlparse_whole
       [Click K_t (Save 0%nat);
        FetchLinks "ev" 3 true true false false (api_answering ["B"; "C"]);
        Click K_t (AddLink "B")]
       (step urlparse_whole (Click K_t (Drop 1%nat)) example_session)) K_t.
Proof.
  apply (rejected_only_grows urlparse_whole
           [Click K_t (Save 0%nat);
            FetchLinks "ev" 3 true true false false (api_answering ["B"; "C"]);
            Click K_t (AddLink "B")]
           (step urlparse_whole (Click K_t (Drop 1%nat)) example_session) K_t "B").
  compute_done.
Defined.

(** X17: in a session in which the search API never repeats a URL within
    the page that "Fetch links" reads, every state reached from the defaults
    keeps, for every category, a candidate list without duplicates and without
    rejected URLs, and disjoint accepted and rejected sets. *)
Theorem session_stays_curated urlparse evs k :
  Forall tidy evs →
  let st := run_events urlparse evs session_defaults in
  NoDup (links st k)
  ∧ (∀ u, u ∈ links st k → u ∉ rejected st k)
  ∧ accepted st k ## rejected st k.
Proof.
  intros Htidy. apply (run_events_curated urlparse evs session_defaults Htidy).
  apply empty_store_curated, session_defaults_empty.
Qed.

Lemma api_answering_tidy us : NoDup us → api_without_repeats (api_answering us).
Proof.
  intros Hnd req results [= <-]. simpl.
  replace (raw_links (result_of <$> us)) with (filter (λ u, Str.truthy u = true) us).
  - by apply list.NoDup_filter.
  - unfold raw_links. clear Hnd. induction us as [|u us IH]; [done|].
    rewrite filter_cons, fmap_cons. simpl. unfold py_or. simpl.
    destruct (Str.truthy u) eqn:Ht; simpl.
    + rewrite Ht. f_equal. exact IH.
    + exact IH.
Qed.

Lemma session_stays_curated_witness :
  accepted
    (run_events urlparse_whole
       [FetchLinks "ev" 3 true true false false (api_answering ["A"; "B"]);
        Click K_t (Save 0%nat); Click K_t (Drop 0%nat);
        FetchLinks "ev" 3 true false false false (api_answering ["A"; "C"])]
       session_defaults) K_t
  ## rejected
    (run_events urlparse_whole
       [FetchLinks "ev" 3 true true false false (api_answering ["A"; "B"]);
        Click K_t (Save 0%nat); Click K_t (Drop 0%nat);
        FetchLinks "ev" 3 true false false false (api_answering ["A"; "C"])]
       session_defaults) K_t.
Proof.
  destruct (session_stays_curated urlparse_whole
           [FetchLinks "ev" 3 true true false false (api_answering ["A"; "B"]);
            Click K_t (Save 0%nat); Click K_t (Drop 0%nat);
            FetchLinks "ev" 3 true false false false (api_answering ["A"; "C"])]
           K_t) as (_ & _ & H); [|exact H].
  repeat constructor; apply api_answering_tidy; compute_done.
Defined.

(** X14: in such a session a rejected URL never comes back: once a URL is
    rejected in a category it is never again a candidate of that category and
    can never again be accepted in it, whatever is fetched or clicked. *)
Theorem rejected_never_returns urlparse evs st k u :
  Forall tidy evs → (∀ k', curated st k') →
  u ∈ rejected st k →
  let st' := run_events urlparse evs st in
  u ∈ rejected st' k ∧ (u ∉ links st' k) ∧ (u ∉ accepted st' k).
Proof.
  intros Htidy Hc Hu st'.
  pose proof (run_events_rejected_grows urlparse evs st k u Hu) as Hu'.
  destruct (run_events_curated urlparse evs st Htidy Hc k) as (_ & Hlr & Har).
  fold st' in Hu', Hlr, Har. split_and!; [done | | set_solver].
  intros Hin. by apply (Hlr u).
Qed.

Lemma rejected_never_returns_witness :
  "B" ∉ links
    (run_events urlparse_whole
       [FetchLinks "ev" 3 true true false false (api_answering ["B"; "C"]);
        Click K_t (AddLink "B"); Click K_t (More (api_answering ["B"; "D"]))]
       (step urlparse_whole (Click K_t (Drop 1%nat)) example_session)) K_t.
Proof.
  destruct (rejected_never_returns urlparse_whole
           [FetchLinks "ev" 3 true true false false (api_answering ["B"; "C"]);
            Click K_t (AddLink "B"); Click K_t (More (api_answering ["B"; "D"]))]
           (step urlparse_whole (Click K_t (Drop 1%nat)) example_session) K_t "B")
    as (_ & H & _); [| | | exact H].
  - repeat constructor. apply api_answering_tidy. compute_done.
  - intros k'. apply curatedb_correct. by destruct k'; vm_compute.
  - compute_done.
Defined.

Lemma filter_none {A} (P : A → Prop) `{∀ x, Decision (P x)} (l : list A) :
  (∀ x, x ∈ l → ¬ P x) → filter P l = [].
Proof.
  induction l as [|x l IH]; intros Hl; [done|].
  rewrite filter_cons. rewrite decide_False by (apply Hl, list_elem_of_here).
  apply IH. intros y Hy. apply Hl. by apply list_elem_of_further.
Qed.

Lemma handle_accepted_listed urlparse k c st k' :
  (∀ u, u ∈ accepted st k' → u ∈ links st k') →
  ∀ u, u ∈ accepted (handle urlparse k c st) k' → u ∈ links (handle urlparse k c st) k'.
Proof.
  intros Hsub. destruct (decide (k = k')) as [<- | Hne].
  2: { by destruct (handle_frame urlparse k k' c st Hne) as (-> & -> & _). }
  destruct c as [i | i | new_url | api]; simpl.
  - unfold on_save. destruct (combined st k !! i) as [url|] eqn:Hi; [|done].
    case_decide as Hacc; [|done]. fn_simpl. intros u.
    rewrite elem_of_union, elem_of_singleton. intros [-> | Hu]; [|by apply Hsub].
    by apply (list_elem_of_lookup_2 _ i), combined_lookup_links.
  - unfold on_drop. destruct (combined st k !! i) as [url|] eqn:Hi; [|done].
    fn_simpl. case_decide; fn_simpl; intros u;
      rewrite elem_of_difference, elem_of_singleton; intros [Hu Hne].
    + apply remove_first_other; [done | by apply Hsub].
    + by apply Hsub.
  - unfold on_add. destruct (Str.truthy new_url); [|done].
    case_decide; [|done]. fn_simpl. intros u Hu.
    rewrite elem_of_app. left. by apply Hsub.
  - destruct (on_more_cases urlparse api k st)
      as [[-> _] | [[e ->] | (meta & n & results & st' & added & _ & _ & _
            & -> & Hl & _ & _ & _ & Ha & _)]]; [done | done |].
    intros u. rewrite Ha, Hl, elem_of_app. intros Hu. left. by apply Hsub.
Qed.

Lemma step_accepted_listed urlparse ev st :
  no_fetch ev →
  (∀ k u, u ∈ accepted st k → u ∈ links st k) →
  ∀ k u, u ∈ accepted (step urlparse ev st) k → u ∈ links (step urlparse ev st) k.
Proof.
  intros Hev Hsub k.
  destruct ev as [b | p n c1 c2 c3 c4 api | k' c | get parse gemini p n]; simpl.
  - apply Hsub.
  - done.
  - destruct (click_page_cases urlparse k' c st) as [-> | ->]; [apply Hsub|].
    apply handle_accepted_listed, Hsub.
  - destruct (generate_questions_curation get parse gemini p n st)
      as (-> & -> & _). apply Hsub.
Qed.

(** X23: as long as "Fetch links" is not pressed again, every accepted URL
    stays in the candidate list of its category, so the rows of a picker are
    exactly its candidates.  (This is what lets "Generate Questions", which
    reads the candidate lists only, see the saved links.) *)
Theorem accepted_stay_listed urlparse evs st k :
  Forall no_fetch evs →
  (∀ k' u, u ∈ accepted st k' → u ∈ links st k') →
  let st' := run_events urlparse evs st in
  (∀ u, u ∈ accepted st' k → u ∈ links st' k)
  ∧ combined st' k = links st' k.
Proof.
  intros Hevs Hsub.
  assert (∀ k' u, u ∈ accepted (run_events urlparse evs st) k'
                  → u ∈ links (run_events urlparse evs st) k') as Hend.
  { unfold run_events. revert st Hsub.
    induction Hevs as [|ev evs Hev Hevs IH]; intros st Hsub; [done|].
    change (∀ k' u,
      u ∈ accepted (foldl (λ st ev, step urlparse ev st) (step urlparse ev st) evs) k'
      → u ∈ links (foldl (λ st ev, step urlparse ev st) (step urlparse ev st) evs) k').
    apply IH. by apply step_accepted_listed. }
  simpl. split; [apply Hend|].
  unfold combined. rewrite filter_none; [by rewrite app_nil_r|].
  intros u Hu Hnot. apply Hnot, Hend. by apply elem_of_elements.
Qed.

Lemma accepted_stay_listed_witness :
  combined
    (run_events urlparse_whole
       [Click K_t (Save 1%nat); Click K_t (More (api_answering ["D"]));
        Click K_t (Drop 0%nat)] example_session) K_t
  = links
    (run_events urlparse_whole
       [Click K_t (Save 1%nat); Click K_t (More (api_answering ["D"]));
        Click K_t (Drop 0%nat)] example_session) K_t.
Proof.
  destruct (accepted_stay_listed urlparse_whole
              [Click K_t (Save 1%nat); Click K_t (More (api_answering ["D"]));
               Click K_t (Drop 0%nat)] example_session K_t)
    as [_ H]; [| |exact H].
  - repeat constructor.
  - intros k' u Hu. exfalso. revert Hu. by destruct k'; vm_compute.
Defined.

(** ** "Fetch links", once more *)

(** X15: "Fetch links" never touches what the user has reviewed: the
    accepted and rejected sets of every category are as before, however the
    run ends.  With an empty product name nothing changes at all; with a
    product name the candidate list of every category that is not ticked is
    emptied. *)
Theorem fetch_links_keeps_reviews urlparse product results_per_query
    chk_tender chk_supplier chk_prev chk_lit api st :
  let st' := state_of (fetch_links urlparse product results_per_query
                         chk_tender chk_supplier chk_prev chk_lit api st) in
  accepted st' = accepted st ∧ rejected st' = rejected st
  ∧ (Str.truthy product = false → st' = st)
  ∧ (Str.truthy product = true →
     ∀ k, ticked chk_tender chk_supplier chk_prev chk_lit k = false → links st' k = []).
Proof.
  destruct (fetch_links_reviews urlparse product results_per_query
              chk_tender chk_supplier chk_prev chk_lit api st) as (Ha & Hr & Hl).
  simpl. split_and!; [done | done | | done].
  intros Hp. unfold fetch_links. by rewrite Hp.
Qed.

Lemma fetch_links_keeps_reviews_witness :
  links (state_of (fetch_links urlparse_whole "ev" 3 true false false false
                     (api_answering ["C"]) example_session)) K_s = []
  ∧ state_of (fetch_links urlparse_whole "" 3 true true true true
                (api_answering ["C"]) example_session) = example_session.
Proof.
  destruct (fetch_links_keeps_reviews urlparse_whole "ev" 3 true false false false
              (api_answering ["C"]) example_session) as (_ & _ & _ & H1).
  destruct (fetch_links_keeps_reviews urlparse_whole "" 3 true true true true
              (api_answering ["C"]) example_session) as (_ & _ & H2 & _).
  split; [by apply H1 | by apply H2].
Defined.

Lemma serp_links_plain_bound urlparse api st q n start engine kind found :
  serp_links urlparse api st q n start engine false kind = Ok found →
  0 ≤ n → Z.of_nat (length found) ≤ n.
Proof.
  unfold serp_links. destruct (api _) as [e | results]; [done|]. simpl.
  intros [= <-] Hn.
  pose proof (slice_to_length n (raw_links (default [] results)) Hn) as Hlen.
  destruct kind as [k|]; [|done].
  pose proof (length_filter (λ u, u ∉ rejected st k)
                (slice_to n (raw_links (default [] results)))). lia.
Qed.

Lemma serp_links_checked urlparse api st q n start engine lit k found :
  serp_links urlparse api st q n start engine lit (Some k) = Ok found →
  (∀ u, u ∈ found → u ∉ rejected st k)
  ∧ (lit = true → ∀ u, u ∈ found → is_scholar_url urlparse u = Ok true).
Proof.
  intros Hs.
  destruct (api {| req_engine := engine; req_q := q; req_num := n; req_start := start |})
    as [e | results] eqn:Hapi.
  - by rewrite (serp_links_failed urlparse api st q n start engine lit (Some k) e Hapi) in Hs.
  - destruct (serp_links_answered urlparse api st q n start engine lit (Some k)
                results Hapi) as (found' & Hf & _ & Hrej & Hlit & _).
    rewrite Hf in Hs. injection Hs as <-. split; [by apply (Hrej k) | done].
Qed.

(** What one ticked or unticked block of "Fetch links" leaves behind when
    it runs to its end. *)
Lemma when_fetch_kind_links urlparse b api k query is_lit n st st' :
  when b (fetch_kind urlparse api k query is_lit n) st = Done st' →
  rejected st' = rejected st
  ∧ (∀ k', k ≠ k' → links st' k' = links st k')
  ∧ (b = true →
     (∀ u, u ∈ links st' k → u ∉ rejected st k)
     ∧ (is_lit = false → 0 ≤ n → Z.of_nat (length (links st' k)) ≤ n)
     ∧ (is_lit = true → ∀ u, u ∈ links st' k → is_scholar_url urlparse u = Ok true)).
Proof.
  unfold when, fetch_kind. destruct b.
  2: { intros [= <-]. by split_and!. }
  destruct (serp_links _ _ _ _ _ _ _ _ _) as [found | e] eqn:Hs; [|done].
  intros [= <-]. simpl. split_and!; [done | | ].
  - intros k' Hne. by rewrite fn_lookup_insert_ne.
  - intros _. rewrite fn_lookup_insert.
    destruct (serp_links_checked _ _ _ _ _ _ _ _ _ _ Hs) as [Hrej Hlit].
    split_and!; [done | | done].
    intros -> Hn. by apply (serp_links_plain_bound _ _ _ _ _ _ _ _ _ Hs).
Qed.

(** X16: when "Fetch links" runs to its end, the new candidate list of
    every ticked category holds no URL rejected in that category; for
    tenders, suppliers and previous tenders it holds at most
    [results_per_query] URLs (when that is not negative), and for literature
    it holds only URLs that [is_scholar_url] accepts. *)
Theorem fetch_links_fresh_candidates urlparse product results_per_query
    chk_tender chk_supplier chk_prev chk_lit api st st' k :
  Str.truthy product = true →
  fetch_links urlparse product results_per_query
              chk_tender chk_supplier chk_prev chk_lit api st = Done st' →
  ticked chk_tender chk_supplier chk_prev chk_lit k = true →
  (∀ u, u ∈ links st' k → u ∉ rejected st' k)
  ∧ (k ≠ K_lit → 0 ≤ results_per_query →
     Z.of_nat (length (links st' k)) ≤ results_per_query)
  ∧ (k = K_lit → ∀ u, u ∈ links st' k → is_scholar_url urlparse u = Ok true).
Proof.
  intros Hp. unfold fetch_links. rewrite Hp. intros Hrun Hk.
  apply and_then_done in Hrun as (s3 & Hrun & H4).
  apply and_then_done in Hrun as (s2 & Hrun & H3).
  apply and_then_done in Hrun as (s1 & Hrun & H2).
  apply and_then_done in Hrun as (s0 & [= <-] & H1).
  apply when_fetch_kind_links in H1 as (R1 & L1 & Q1), H2 as (R2 & L2 & Q2),
    H3 as (R3 & L3 & Q3), H4 as (R4 & L4 & Q4).
  destruct k; simpl in Hk; subst.
  - destruct (Q1 eq_refl) as (Hrej & Hlen & _).
    rewrite R4, R3, R2, R1, (L4 K_t), (L3 K_t), (L2 K_t) by done.
    split_and!; [done | intros _; by apply Hlen | done].
  - destruct (Q2 eq_refl) as (Hrej & Hlen & _).
    rewrite R4, R3, R2, (L4 K_s), (L3 K_s) by done.
    split_and!; [done | intros _; by apply Hlen | done].
  - destruct (Q3 eq_refl) as (Hrej & Hlen & _).
    rewrite R4, R3, (L4 K_prev) by done.
    split_and!; [done | intros _; by apply Hlen | done].
  - destruct (Q4 eq_refl) as (Hrej & _ & Hlit). rewrite R4.
    split_and!; [done | done | intros _; by apply Hlit].
Qed.

Lemma fetch_links_fresh_candidates_witness :
  Z.of_nat (length (links example_session K_s)) ≤ 2.
Proof.
  destruct (fetch_links_fresh_candidates urlparse_whole "ev charger" 2
              true true false false (api_answering ["A"; "B"]) session_defaults
              example_session K_s eq_refl eq_refl eq_refl) as (_ & H & _).
  apply H; [done | lia].
Defined.

(** ** The two generation handlers' failures *)

(** X18: in a reachable session (after any clicks and any runs of "Fetch
    links" and "Generate Questions") the "More suggestions" handler always
    finds the page size it looks up: whenever a query is stored for the
    category, [n_results] is stored too, so that lookup never raises
    [KeyError]; and when the search API then answers in the documented
    format, the handler runs to its end.  Without a stored query the handler
    does nothing. *)
Theorem more_finds_page_size urlparse api k st :
  reachable urlparse st →
  (queries st k = None → on_more urlparse api k st = Ok st)
  ∧ ∀ meta, queries st k = Some meta →
      ∃ n, n_results st = Some n
        ∧ ∀ results,
            api {| req_engine := engine meta; req_q := q meta; req_num := n;
                   req_start := start_index st k |} = Json results →
            ∃ st', on_more urlparse api k st = Ok st'.
Proof.
  intros Hreach. destruct (reachable_query_stored urlparse st Hreach) as [_ Hn].
  split.
  - intros Hq. unfold on_more. by rewrite Hq.
  - intros meta Hq. destruct Hn as [Hnone | [n Hsome]]; [by rewrite Hnone in Hq|].
    exists n. split; [done|]. intros results Hapi.
    destruct (serp_links_answered urlparse api st (q meta) n (start_index st k)
                (engine meta) (lit meta) (Some k) results Hapi) as (found & Hf & _).
    unfold on_more. rewrite Hq, Hsome, Hf. simpl. by eexists.
Qed.

Lemma more_finds_page_size_witness :
  ∃ n, n_results
         (state_of (generate_questions (λ _, Raise Timeout) (λ _, Ok french_page)
                      (λ _, Ok "1. Which sites?") "ev" 3 example_session))
       = Some n.
Proof.
  destruct (more_finds_page_size urlparse_whole (api_answering ["D"]) K_t
              (state_of (generate_questions (λ _, Raise Timeout) (λ _, Ok french_page)
                           (λ _, Ok "1. Which sites?") "ev" 3 example_session)))
    as [_ H].
  - apply reach_ask.
    apply (reach_fetch urlparse_whole session_defaults "ev charger" 2
             true true false false (api_answering ["A"; "B"])), reach_defaults.
  - destruct (H {| q := "ev charger procurement tender"; lit := false;
                   engine := "google" |} eq_refl) as (n & Hn & _).
    by exists n.
Defined.

Lemma extract_questions_digit text question :
  question ∈ extract_questions text →
  ∃ d rest, question = String d rest ∧ d ∈ ["1"; "2"; "3"; "4"; "5"]%char.
Proof.
  unfold extract_questions. rewrite list_elem_of_fmap.
  intros (ln & -> & Hln). apply list_elem_of_filter in Hln as [Hnum _].
  apply numbered_check in Hnum as (ws & d & rest & -> & Hws & Hd).
  unfold Str.strip. rewrite (lstrip_numbered ws d rest Hws Hd).
  destruct (rstrip_head d rest (digit_not_space d Hd)) as [r ->]. eauto.
Qed.

(** X21: "Generate Questions" can only fail because the generation model
    failed: page fetches and prompt building never stop it.  When the model
    always answers the handler runs to its end; when the handler stops, the
    exception is one the model raised, the supplier questions are as before,
    and the tender questions are either as before or already replaced by the
    questions parsed from the model's first answer. *)
Theorem generate_questions_fails_only_with_gemini get parse gemini
    product results_per_query st :
  ((∀ prompt, returns (gemini prompt)) →
   ∃ st', generate_questions get parse gemini product results_per_query st = Done st')
  ∧ (∀ st' e,
       generate_questions get parse gemini product results_per_query st = Crashed st' e →
       (∃ prompt, gemini prompt = Raise e)
       ∧ s_qs st' = s_qs st
       ∧ (t_qs st' = t_qs st
          ∨ ∃ prompt answer, gemini prompt = Ok answer
                             ∧ t_qs st' = extract_questions answer)).
Proof.
  destruct (generate_questions_cases get parse gemini product results_per_query st)
    as [[_ ->] | [(p & e & Hg & ->) | [(p & a & p' & e & Hg & Hg' & ->)
         | (p & a & p' & a' & _ & _ & _ & _ & ->)]]].
  - split; [eauto | done].
  - split.
    + intros Hall. destruct (Hall p) as [a Ha]. congruence.
    + intros st' e' [= <- <-]. split_and!; [eauto | done | by left].
  - split.
    + intros Hall. destruct (Hall p') as [a' Ha']. congruence.
    + intros st' e' [= <- <-]. split_and!; [eauto | done | right; eauto].
  - split; [eauto | done].
Qed.

Lemma generate_questions_fails_only_with_gemini_witness :
  ∃ st', generate_questions (λ _, Raise Timeout) (λ _, Ok french_page)
           (λ _, Ok "1. Which sites?") "ev" 3 example_session = Done st'.
Proof.
  apply (proj1 (generate_questions_fails_only_with_gemini
                  (λ _, Raise Timeout) (λ _, Ok french_page)
                  (λ _, Ok "1. Which sites?") "ev" 3 example_session)).
  intros prompt. by eexists.
Defined.

(** X22: "Generate Questions" does nothing unless both the tender and the
    supplier candidate lists are non-empty, and it never changes the curation
    state (candidates, accepted, rejected, queries, cursors).  When it runs to
    its end with both lists non-empty, every question it stores, for either
    role, begins with a digit from 1 to 5. *)
Theorem generate_questions_effect get parse gemini product results_per_query st :
  (links st K_t = [] ∨ links st K_s = [] →
   generate_questions get parse gemini product results_per_query st = Done st)
  ∧ (let st' := state_of (generate_questions get parse gemini
                            product results_per_query st) in
     links st' = links st ∧ accepted st' = accepted st ∧ rejected st' = rejected st
     ∧ queries st' = queries st ∧ start_index st' = start_index st)
  ∧ (∀ st', links st K_t ≠ [] → links st K_s ≠ [] →
       generate_questions get parse gemini product results_per_query st = Done st' →
       ∀ question, question ∈ t_qs st' ∨ question ∈ s_qs st' →
         ∃ d rest, question = String d rest ∧ d ∈ ["1"; "2"; "3"; "4"; "5"]%char).
Proof.
  split_and!.
  - intros Hgate. unfold generate_questions.
    destruct Hgate as [-> | ->]; [done|]. by rewrite andb_false_r.
  - destruct (generate_questions_curation get parse gemini product results_per_query st)
      as (? & ? & ? & ? & ? & _). by split_and!.
  - intros st' Ht Hs.
    destruct (generate_questions_cases get parse gemini product results_per_query st)
      as [[[? | ?] _] | [(p & e & _ & ->) | [(p & a & p' & e & _ & _ & ->)
           | (p & a & p' & a' & _ & _ & _ & _ & ->)]]]; try done.
    intros [= <-] question [Hq | Hq]; simpl in Hq;
      by apply extract_questions_digit in Hq.
Qed.

Lemma generate_questions_effect_witness :
  generate_questions (λ _, Ok "<html>") (λ _, Ok french_page)
    (λ _, Ok "1. Which sites?") "ev" 3 session_defaults = Done session_defaults.
Proof.
  apply (proj1 (generate_questions_effect (λ _, Ok "<html>") (λ _, Ok french_page)
                  (λ _, Ok "1. Which sites?") "ev" 3 session_defaults)).
  by left.
Defined.

(** ** What a picker shows, and when *)

(** X19: the rows of a picker are the candidates, in their order, followed
    by the accepted URLs that are not candidates: a URL has a row exactly when
    it is a candidate or accepted, and when the candidate list has no
    duplicate no URL has two rows. *)
Theorem combined_rows st k :
  (∀ u, u ∈ combined st k ↔ u ∈ links st k ∨ u ∈ accepted st k)
  ∧ take (length (links st k)) (combined st k) = links st k
  ∧ (NoDup (links st k) → NoDup (combined st k)).
Proof.
  split_and!.
  - intros u. apply combined_elem.
  - unfold combined. by rewrite take_app_length.
  - intros Hnd. unfold combined. apply list.NoDup_app. split_and!; [done | |].
    + intros u Hu Hin. by apply list_elem_of_filter in Hin as [Hnot _].
    + apply list.NoDup_filter, NoDup_elements.
Qed.

Lemma combined_rows_witness :
  NoDup (combined (on_save K_t 0%nat example_session) K_t).
Proof.
  apply (combined_rows (on_save K_t 0%nat example_session) K_t). compute_done.
Defined.

Lemma any_links_none st : (∀ k, links st k = []) → any_links st = false.
Proof. intros Hl. unfold any_links. simpl. by rewrite !Hl. Qed.

Lemma step_without_candidates urlparse ev st :
  no_fetch ev → (∀ k, links st k = []) →
  step urlparse ev st = set_only_eng (only_eng (step urlparse ev st)) st.
Proof.
  intros Hev Hl.
  destruct ev as [b | p n c1 c2 c3 c4 api | k' c | get parse gemini p n]; simpl.
  - done.
  - done.
  - unfold click_page. rewrite (any_links_none st Hl). by destruct st.
  - unfold generate_questions. rewrite (Hl K_t). simpl. by destruct st.
Qed.

(** X24: while no category has a candidate, nothing but "Fetch links" has
    any effect on the session, apart from the English-only box: no picker is
    drawn, so URLs accepted or rejected earlier cannot be changed, and
    "Generate Questions" does nothing. *)
Theorem nothing_without_candidates urlparse evs st :
  Forall no_fetch evs → (∀ k, links st k = []) →
  run_events urlparse evs st
    = set_only_eng (only_eng (run_events urlparse evs st)) st.
Proof.
  unfold run_events. intros Hevs. revert st.
  induction Hevs as [|ev evs Hev Hevs IH]; intros st Hl; [by destruct st|].
  change (foldl (λ st ev, step urlparse ev st) st (ev :: evs))
    with (foldl (λ st ev, step urlparse ev st) (step urlparse ev st) evs).
  pose proof (step_without_candidates urlparse ev st Hev Hl) as Hstep.
  assert (∀ k, links (step urlparse ev st) k = []) as Hl'
    by (intros k; rewrite Hstep; apply Hl).
  rewrite (IH _ Hl'). rewrite Hstep at 2. done.
Qed.

Lemma nothing_without_candidates_witness :
  run_events urlparse_whole
    [Click K_t (AddLink "A"); Click K_s (More (api_answering ["B"]));
     Ask (λ _, Ok "<html>") (λ _, Ok french_page) (λ _, Ok "1. Which sites?") "ev" 3]
    session_defaults
  = session_defaults.
Proof.
  rewrite (nothing_without_candidates urlparse_whole
    [Click K_t (AddLink "A"); Click K_s (More (api_answering ["B"]));
     Ask (λ _, Ok "<html>") (λ _, Ok french_page) (λ _, Ok "1. Which sites?") "ev" 3]
    session_defaults); [reflexivity | repeat constructor | done].
Defined.

(** ** "More suggestions" when the search answers *)

Lemma append_new_elem acc extra ls u :
  u ∈ append_new acc ls extra ↔ u ∈ ls ∨ (u ∈ extra ∧ u ∉ acc).
Proof.
  unfold append_new. revert ls.
  induction extra as [|v extra IH]; intros ls; simpl.
  - rewrite elem_of_nil. tauto.
  - case_decide as Hv.
    + rewrite IH, elem_of_app, list_elem_of_singleton, elem_of_cons.
      destruct Hv as [_ Hv]. split.
      * intros [[? | ->] | [? ?]]; auto.
      * intros [? | [[-> | ?] ?]]; auto.
    + rewrite IH, elem_of_cons. split.
      * intros [? | [? ?]]; auto.
      * intros [? | [[-> | ?] Hu]]; auto.
        destruct (decide (v ∈ ls)); [by left|]. by destruct Hv.
Qed.

(** X25: when a query is stored for the category and the search API
    answers, the "More suggestions" handler appends to the candidate list
    exactly the returned URLs that are neither candidates nor accepted (each
    once, the old candidates staying in front), none of them rejected; it
    moves the cursor on by the page size [n_results], however many URLs were
    appended; and it leaves the accepted and rejected sets as they were. *)
Theorem fetch_more_when_answered urlparse api k st meta n results :
  queries st k = Some meta → n_results st = Some n →
  api {| req_engine := engine meta; req_q := q meta; req_num := n;
         req_start := start_index st k |} = Json results →
  ∃ found,
    serp_links urlparse api st (q meta) n (start_index st k)
               (engine meta) (lit meta) (Some k) = Ok found
    ∧ (∀ u, u ∈ found → u ∈ raw_links (default [] results) ∧ u ∉ rejected st k)
    ∧ let st' := handle urlparse k (More api) st in
      (∀ u, u ∈ links st' k ↔ u ∈ links st k ∨ (u ∈ found ∧ u ∉ accepted st k))
      ∧ (∃ added, links st' k = links st k ++ added)
      ∧ (NoDup (links st k) → NoDup (links st' k))
      ∧ start_index st' k = start_index st k + n
      ∧ accepted st' = accepted st ∧ rejected st' = rejected st.
Proof.
  intros Hq Hn Hapi.
  destruct (serp_links_answered urlparse api st (q meta) n (start_index st k)
              (engine meta) (lit meta) (Some k) results Hapi)
    as (found & Hf & Hsub & Hrej & _).
  exists found. split; [done|]. split.
  { intros u Hu. split; [by apply (elem_of_sublist found) | by apply (Hrej k)]. }
  simpl. unfold on_more. rewrite Hq, Hn, Hf. fn_simpl.
  destruct (append_new_spec (accepted st k) found (links st k))
    as (added & Heq & _ & Hnd).
  split_and!; [| by exists added | by rewrite Heq | done | done | done].
  intros u. apply append_new_elem.
Qed.

Lemma fetch_more_when_answered_witness :
  "D" ∈ links (handle urlparse_whole K_t (More (api_answering ["D"; "B"; "A"]))
                 example_session) K_t
  ∧ start_index (handle urlparse_whole K_t (More (api_answering ["D"; "B"; "A"]))
                   example_session) K_t
    = start_index example_session K_t + 2.
Proof.
  destruct (fetch_more_when_answered urlparse_whole (api_answering ["D"; "B"; "A"])
              K_t example_session
              {| q := "ev charger procurement tender"; lit := false; engine := "google" |}
              2 (Some (result_of <$> ["D"; "B"; "A"])) eq_refl eq_refl eq_refl)
    as (found & Hf & _ & Hin & _ & _ & Hstart & _).
  vm_compute in Hf. injection Hf as <-.
  split; [|exact Hstart].
  apply Hin. right. split; compute_done.
Defined.
